(** * A transactional bank ledger: accounts, reversible commands, invoker

    Shallow embedding of [services/designPatterns.ts] (the Strategy and
    Command patterns around [BankAccount] and [BankInvoker]) together with
    the declarations of [types.ts].

    - A TypeScript [number] is an IEEE 754 binary64 value; it is modelled by
      [spec_float] at precision 53 and maximal exponent 1024, with the
      operations [SFadd], [SFsub], [SFmul] and the comparisons [SFleb],
      [SFltb] of the standard library's executable specification.
    - [BankAccount] objects are shared by reference between the invoker's
      registry and the commands that act on them: they live in a heap
      ([list BankAccount], addressed by position) and everything else holds
      references into it.
    - A [throw] leaves every mutation made before it in place, so effectful
      code runs in a state monad whose state survives an error.
    - [uuidv4()] and [new Date()] are answered by the environment: the
      development is parametric in the two streams of answers. *)

From Stdlib Require Import ZArith Lia Bool SpecFloat.
From stdpp Require Import base option list strings.

Local Open Scope Z_scope.

(** ** Numbers *)

Module Num.

Definition number : Type := spec_float.

Definition prec : Z := 53.
Definition emax : Z := 1024.

(** Every value a JavaScript program can hold is a well-formed binary64
    datum; [spec_float] also contains unnormalised mantissas, which
    [is_number] excludes. *)
Definition is_number (x : number) : bool := valid_binary prec emax x.

Definition add (x y : number) : number := SFadd prec emax x y.
Definition sub (x y : number) : number := SFsub prec emax x y.
Definition mul (x y : number) : number := SFmul prec emax x y.
Definition div (x y : number) : number := SFdiv prec emax x y.

(** [x <= y], [x < y] and [x > y] of the source. *)
Definition le (x y : number) : bool := SFleb x y.
Definition lt (x y : number) : bool := SFltb x y.
Definition gt (x y : number) : bool := SFltb y x.

(** Integer literals; [0] is the positive zero. *)
Definition of_Z (z : Z) : number := binary_normalize prec emax z 0 false.
Definition zero : number := S754_zero false.

(** The literal [0.03]: the binary64 value nearest to 3/100, that is
    [0x1.eb851eb851eb8p-6]. *)
Definition lit_0_03 : number := S754_finite false 8646911284551352 (-58).
(** The literals [0.1] and [0.2]: [0x1.999999999999ap-4] and
    [0x1.999999999999ap-3]. *)
Definition lit_0_1 : number := S754_finite false 7205759403792794 (-56).
Definition lit_0_2 : number := S754_finite false 7205759403792794 (-55).
(** The literals [12.04], [0.3] and [0.03] again. *)
Definition lit_12_04 : number := S754_finite false 6777917439192596 (-49).
Definition lit_0_3 : number := S754_finite false 5404319552844595 (-54).

End Num.

Import Num.

Declare Scope num_scope.
Delimit Scope num_scope with num.
Infix "+" := Num.add : num_scope.
Infix "-" := Num.sub : num_scope.
Infix "*" := Num.mul : num_scope.
Infix "<=?" := Num.le : num_scope.
Infix "<?" := Num.lt : num_scope.
Infix ">?" := Num.gt : num_scope.

(** [m * 2^k] for a natural [k], and the binary64 representation of a
    positive integer below 2^53: a mantissa of 53 bits. *)
Definition shift (m : positive) (k : Z) : positive :=
  match k with
  | Z.pos p => Pos.iter xO m p
  | _ => m
  end.

Definition canon (v : positive) : number :=
  S754_finite false (shift v (53 - Z.pos (digits2_pos v)))
              (Z.pos (digits2_pos v) - 53).

(** ** [types.ts] *)

Inductive AccountType := SAVINGS | CHECKING.

(** The union type of [Transaction['type']]. *)
Inductive TransactionType :=
  DEPOSIT | WITHDRAW | TRANSFER_IN | TRANSFER_OUT | INTEREST.

(** [interface Transaction]; the fields [id], [accountId], [type], [amount],
    [timestamp] and [description], in that order. *)
Record Transaction := mkTransaction {
  tx_id : string;
  tx_accountId : string;
  tx_type : TransactionType;
  tx_amount : number;
  tx_timestamp : Z;
  tx_description : string
}.

(** ** Strategy pattern: interest calculation *)

(** The two implementers of [interface InterestStrategy]. *)
Inductive InterestStrategy := SavingsInterestStrategy | CheckingInterestStrategy.

(** [private rate: number = 0.03] of [SavingsInterestStrategy]. *)
Definition rate : number := lit_0_03.

Definition calculateInterest (this : InterestStrategy) (balance : number) : number :=
  match this with
  | SavingsInterestStrategy => (balance * rate)%num
  | CheckingInterestStrategy => zero
  end.

(** ** The program state *)

(** A reference to a [BankAccount] object: its position in the heap. *)
Definition ref : Type := nat.

(** [class BankAccount]: the fields [id], [name], [type], [balance],
    [interestStrategy] and [transactions]. *)
Record BankAccount := mkBankAccount {
  acc_id : string;
  acc_name : string;
  acc_type : AccountType;
  acc_balance : number;
  acc_interestStrategy : InterestStrategy;
  acc_transactions : list Transaction
}.

Definition set_balance (b : number) (a : BankAccount) : BankAccount :=
  mkBankAccount (acc_id a) (acc_name a) (acc_type a) b
                (acc_interestStrategy a) (acc_transactions a).

Definition set_transactions (ts : list Transaction) (a : BankAccount) : BankAccount :=
  mkBankAccount (acc_id a) (acc_name a) (acc_type a) (acc_balance a)
                (acc_interestStrategy a) ts.

(** The three implementers of [interface BankCommand], each with its
    constructor's private fields. *)
Inductive BankCommand :=
| DepositCommand (account : ref) (amount : number)
| WithdrawCommand (account : ref) (amount : number)
| TransferCommand (fromAccount toAccount : ref) (amount : number).

(** What the code throws.
    - [DepositNotPositive]: [new Error("Deposit amount must be positive")];
    - [WithdrawNotPositive]: [new Error("Withdraw amount must be positive")];
    - [InsufficientFunds b a]: [new Error(`Insufficient funds. Balance: ${b},
      Requested: ${a}`)];
    - [NullReference]: the [TypeError] of a property access through a
      reference that designates no object. The type checker rules it out;
      the model needs it to be total. *)
Inductive Error :=
| DepositNotPositive
| WithdrawNotPositive
| InsufficientFunds (balance requested : number)
| NullReference.

(** The error kinds of the specification. *)
Definition InvalidAmount (e : Error) : bool :=
  match e with DepositNotPositive | WithdrawNotPositive => true | _ => false end.

Definition is_InsufficientFunds (e : Error) : bool :=
  match e with InsufficientFunds _ _ => true | _ => false end.

(** The state of the running program: the heap of account objects, the
    environment's answers to [uuidv4()] and [new Date()] with the number of
    identifiers drawn so far, and the two private fields of the one
    [BankInvoker] the application creates ([bankSystem]):
    [accounts : Map<string, BankAccount>], in insertion order, and
    [history : BankCommand[]], most recent last. *)
Record State := mkState {
  heap : list BankAccount;
  uuid_supply : nat -> string;
  date_supply : nat -> Z;
  draws : nat;
  accounts : list (string * ref);
  history : list BankCommand
}.

Definition set_heap (h : list BankAccount) (s : State) : State :=
  mkState h (uuid_supply s) (date_supply s) (draws s) (accounts s) (history s).

Definition set_draws (n : nat) (s : State) : State :=
  mkState (heap s) (uuid_supply s) (date_supply s) n (accounts s) (history s).

Definition set_accounts (m : list (string * ref)) (s : State) : State :=
  mkState (heap s) (uuid_supply s) (date_supply s) (draws s) m (history s).

Definition set_history (h : list BankCommand) (s : State) : State :=
  mkState (heap s) (uuid_supply s) (date_supply s) (draws s) (accounts s) h.

(** [new BankInvoker()] in a program that has created no account yet. *)
Definition initial (uuids : nat -> string) (dates : nat -> Z) : State :=
  mkState [] uuids dates 0%nat [] [].

(** ** Statements: state and exceptions *)

(** A statement either completes with a value or throws; in both cases the
    mutations it made are kept. *)
Definition M (A : Type) : Type := State -> (Error + A) * State.

Definition ret {A} (x : A) : M A := fun s => (inr x, s).

Definition bind {A B} (m : M A) (k : A -> M B) : M B :=
  fun s => match m s with
           | (inr x, s') => k x s'
           | (inl e, s') => (inl e, s')
           end.

Definition throw {A} (e : Error) : M A := fun s => (inl e, s).

(** [try { body } catch (e) { handler }]. *)
Definition try_catch {A} (body : M A) (handler : Error -> M A) : M A :=
  fun s => match body s with
           | (inr x, s') => (inr x, s')
           | (inl e, s') => handler e s'
           end.

Definition gets {A} (f : State -> A) : M A := fun s => (inr (f s), s).
Definition modify (f : State -> State) : M unit := fun s => (inr tt, f s).

Declare Scope stmt_scope.
Delimit Scope stmt_scope with stmt.
Bind Scope stmt_scope with M.
Notation "'let*' x ':=' m 'in' k" := (bind m (fun x => k))
  (at level 10, x name, m at level 100, k at level 200) : stmt_scope.
Notation "m ';;' k" := (bind m (fun _ => k))
  (at level 100, k at level 200, right associativity) : stmt_scope.

Local Open Scope stmt_scope.

(** [uuidv4()] and [new Date()]. *)
Definition uuidv4 : M string :=
  fun s => (inr (uuid_supply s (draws s)), set_draws (S (draws s)) s).

Definition new_Date : M Z := gets (fun s => date_supply s (draws s)).

(** Reading and writing an object through a reference, and [new]. *)
Definition load (r : ref) : M BankAccount :=
  fun s => match heap s !! r with
           | Some a => (inr a, s)
           | None => (inl NullReference, s)
           end.

Definition store (r : ref) (a : BankAccount) : M unit :=
  modify (fun s => set_heap (<[r := a]> (heap s)) s).

Definition alloc (a : BankAccount) : M ref :=
  fun s => (inr (length (heap s)), set_heap (heap s ++ [a]) s).

(** ** Domain entity: [BankAccount] *)

(** The constructor; the strategy is chosen from the account type. *)
Definition new_BankAccount (name : string) (type : AccountType)
    (initialBalance : number) : M ref :=
  let* id := uuidv4 in
  alloc {| acc_id := id;
           acc_name := name;
           acc_type := type;
           acc_balance := initialBalance;
           acc_interestStrategy :=
             match type with
             | SAVINGS => SavingsInterestStrategy
             | CHECKING => CheckingInterestStrategy
             end;
           acc_transactions := [] |}.

(** [this.transactions.push({ id: uuidv4(), accountId: this.id, type, amount,
    timestamp: new Date(), description })]. *)
Definition addTransaction (this : ref) (type : TransactionType)
    (amount : number) (description : string) : M unit :=
  let* id := uuidv4 in
  let* a := load this in
  let* timestamp := new_Date in
  store this
    (set_transactions
       (acc_transactions a ++
          [mkTransaction id (acc_id a) type amount timestamp description]) a).

Definition getBalance (this : ref) : M number :=
  let* a := load this in ret (acc_balance a).

(** A copy of the log: a value of the model already is one. *)
Definition getTransactions (this : ref) : M (list Transaction) :=
  let* a := load this in ret (acc_transactions a).

Definition deposit (this : ref) (amount : number) (description : string) : M unit :=
  if (amount <=? zero)%num then throw DepositNotPositive
  else
    (let* a := load this in store this (set_balance (acc_balance a + amount)%num a));;
    addTransaction this DEPOSIT amount description.

Definition withdraw (this : ref) (amount : number) (description : string) : M unit :=
  if (amount <=? zero)%num then throw WithdrawNotPositive
  else
    let* a := load this in
    if (amount >? acc_balance a)%num
    then throw (InsufficientFunds (acc_balance a) amount)
    else
      store this (set_balance (acc_balance a - amount)%num a);;
      addTransaction this WITHDRAW amount description.

Definition applyInterest (this : ref) : M number :=
  let* a := load this in
  let interest := calculateInterest (acc_interestStrategy a) (acc_balance a) in
  if (interest >? zero)%num
  then
    store this (set_balance (acc_balance a + interest)%num a);;
    addTransaction this INTEREST interest "Interest Credited";;
    ret interest
  else ret interest.

Definition forceBalanceChange (this : ref) (amount : number) : M unit :=
  let* a := load this in store this (set_balance (acc_balance a + amount)%num a).

(** ** Command pattern: operations *)

(** [execute()], by dynamic dispatch on the command. The two-argument
    methods called with one argument take their default description. *)
Definition execute (this : BankCommand) : M unit :=
  match this with
  | DepositCommand account amount => deposit account amount "Deposit"
  | WithdrawCommand account amount => withdraw account amount "Withdraw"
  | TransferCommand fromAccount toAccount amount =>
      let* to := load toAccount in
      withdraw fromAccount amount ("Transfer to " +:+ acc_name to);;
      let* from := load fromAccount in
      deposit toAccount amount ("Transfer from " +:+ acc_name from)
  end.

Definition undo (this : BankCommand) : M unit :=
  match this with
  | DepositCommand account amount =>
      withdraw account amount "UNDO: Revert Deposit"
  | WithdrawCommand account amount =>
      deposit account amount "UNDO: Revert Withdraw"
  | TransferCommand fromAccount toAccount amount =>
      let* from := load fromAccount in
      withdraw toAccount amount ("UNDO: Revert Transfer from " +:+ acc_name from);;
      let* to := load toAccount in
      deposit fromAccount amount ("UNDO: Revert Transfer to " +:+ acc_name to)
  end.

(** ** Invoker: [BankInvoker] *)

(** [Map.prototype.set]: an existing key keeps its place, a new one goes
    last. *)
Fixpoint Map_set (k : string) (v : ref) (m : list (string * ref)) : list (string * ref) :=
  match m with
  | [] => [(k, v)]
  | (k', v') :: m' =>
      if String.eqb k k' then (k, v) :: m' else (k', v') :: Map_set k v m'
  end.

Fixpoint Map_get (k : string) (m : list (string * ref)) : option ref :=
  match m with
  | [] => None
  | (k', v') :: m' => if String.eqb k k' then Some v' else Map_get k m'
  end.

Definition Map_values (m : list (string * ref)) : list ref := map snd m.

(** [Array.prototype.push] and [pop] on [this.history]. *)
Definition history_push (command : BankCommand) : M unit :=
  modify (fun s => set_history (history s ++ [command]) s).

Definition history_pop : M (option BankCommand) :=
  fun s => match last (history s) with
           | Some command =>
               (inr (Some command), set_history (removelast (history s)) s)
           | None => (inr None, s)
           end.

Definition createAccount (name : string) (type : AccountType)
    (initialBalance : number) : M ref :=
  let* account := new_BankAccount name type initialBalance in
  let* a := load account in
  modify (fun s => set_accounts (Map_set (acc_id a) account (accounts s)) s);;
  ret account.

Definition getAccount (id : string) : M (option ref) :=
  gets (fun s => Map_get id (accounts s)).

Definition getAllAccounts : M (list ref) :=
  gets (fun s => Map_values (accounts s)).

(** [console.error] writes to the console only. *)
Definition executeCommand (command : BankCommand) : M unit :=
  try_catch
    (execute command;; history_push command)
    (fun e => throw e).

Definition undoLastCommand : M unit :=
  let* command := history_pop in
  match command with
  | Some command =>
      try_catch (undo command)
                (fun e => history_push command;; throw e)
  | None => ret tt
  end.

Definition getHistory : M (list BankCommand) := gets history.

Fixpoint forEach {A} (f : A -> M unit) (l : list A) : M unit :=
  match l with
  | [] => ret tt
  | x :: l' => f x;; forEach f l'
  end.

Definition applyInterestToAll : M unit :=
  let* accs := gets (fun s => Map_values (accounts s)) in
  forEach (fun acc => applyInterest acc;; ret tt) accs.

(** ** Sessions: the calls of the presentation layer *)

(** The entry points [App.tsx] uses. Its handlers catch whatever an entry
    point throws and show the message, so a session goes on after a failed
    call, from the state the call left. *)
Inductive Call :=
| CreateAccount (name : string) (type : AccountType) (initialBalance : number)
| ExecuteCommand (command : BankCommand)
| UndoLastCommand
| ApplyInterestToAll.

Definition perform (c : Call) : M unit :=
  match c with
  | CreateAccount name type initialBalance =>
      createAccount name type initialBalance;; ret tt
  | ExecuteCommand command => executeCommand command
  | UndoLastCommand => undoLastCommand
  | ApplyInterestToAll => applyInterestToAll
  end.

(** The state after a session, calls in order. *)
Definition run (calls : list Call) (s : State) : State :=
  fold_left (fun s c => snd (perform c s)) calls s.

(** The initial balances of the accounts a session opens; the n-th account
    opened is the one at reference n. *)
Fixpoint opening (calls : list Call) : list number :=
  match calls with
  | [] => []
  | CreateAccount _ _ initialBalance :: calls' => initialBalance :: opening calls'
  | _ :: calls' => opening calls'
  end.

(** ** The ledger identity of the specification *)

(** Kinds counted positive: deposit, interest, transfer-in; the others
    (withdraw, transfer-out) are counted negative. *)
Definition credits (k : TransactionType) : bool :=
  match k with
  | DEPOSIT | INTEREST | TRANSFER_IN => true
  | WITHDRAW | TRANSFER_OUT => false
  end.

Definition post (b : number) (t : Transaction) : number :=
  if credits (tx_type t) then (b + tx_amount t)%num else (b - tx_amount t)%num.

(** The signed amounts of a log, added up in order from [b]. *)
Definition signed_sum_from (b : number) (log : list Transaction) : number :=
  fold_left post log b.

Definition signed_sum (log : list Transaction) : number :=
  signed_sum_from zero log.

(** The kinds the account methods record. *)
Definition recorded_kind (k : TransactionType) : bool :=
  match k with
  | DEPOSIT | WITHDRAW | INTEREST => true
  | TRANSFER_IN | TRANSFER_OUT => false
  end.

(** ** The effect of a recording method, in closed form *)

(** The log entry [addTransaction] pushes onto account [a] in state [s]:
    the identifier is the next one drawn, the date is read after it. *)
Definition entry (s : State) (a : BankAccount) (type : TransactionType)
    (amount : number) (description : string) : Transaction :=
  mkTransaction (uuid_supply s (draws s)) (acc_id a) type amount
                (date_supply s (S (draws s))) description.

(** Account [a] after its balance became [b] and one entry was logged. *)
Definition booked (s : State) (a : BankAccount) (b : number)
    (type : TransactionType) (amount : number) (description : string) : BankAccount :=
  set_transactions (acc_transactions a ++ [entry s a type amount description])
                   (set_balance b a).

(** The state after the account at [this] was so updated. *)
Definition book (s : State) (this : ref) (a : BankAccount) (b : number)
    (type : TransactionType) (amount : number) (description : string) : State :=
  set_draws (S (draws s))
    (set_heap (<[this := booked s a b type amount description]> (heap s)) s).

(** Two legs: a withdrawal from [w] then a deposit into [d], the
    descriptions naming the counterparty. Both [execute] and [undo] of a
    transfer have this shape. *)
Definition two_legs (w d : ref) (amount : number) (dw dd : string -> string) : M unit :=
  let* ad := load d in
  withdraw w amount (dw (acc_name ad));;
  let* aw := load w in
  deposit d amount (dd (acc_name aw)).

(** ** Invariants of a session *)

(** The policy bound to each category at creation. *)
Definition policy (type : AccountType) : InterestStrategy :=
  match type with
  | SAVINGS => SavingsInterestStrategy
  | CHECKING => CheckingInterestStrategy
  end.

(** The account [createAccount] makes. *)
Definition opened_account (s : State) (name : string) (type : AccountType)
    (initialBalance : number) : BankAccount :=
  mkBankAccount (uuid_supply s (draws s)) name type initialBalance (policy type) [].

(** An account opened with balance [b0] is sound when its balance is [b0]
    with the signed amounts of its log applied in order, its log holds
    recorded kinds only, and its strategy is the policy of its category. *)
Definition sound_account (b0 : number) (a : BankAccount) : Prop :=
  acc_balance a = signed_sum_from b0 (acc_transactions a) /\
  Forall (fun t => recorded_kind (tx_type t) = true) (acc_transactions a) /\
  acc_interestStrategy a = policy (acc_type a).

(** One booking on a heap: an account gets one more entry [t], of a
    recorded kind, and its balance moves by the signed amount of [t];
    [evolves] is any number of bookings. *)
Inductive evolves : list BankAccount -> list BankAccount -> Prop :=
| evolves_refl h : evolves h h
| evolves_step h this a t h' :
    h !! this = Some a ->
    recorded_kind (tx_type t) = true ->
    evolves (<[this := set_transactions (acc_transactions a ++ [t])
                         (set_balance (post (acc_balance a) t) a)]> h) h' ->
    evolves h h'.

(** A statement that only books: the registry and the history are as
    before. *)
Definition bookkeeping (s s' : State) : Prop :=
  evolves (heap s) (heap s') /\
  accounts s' = accounts s /\
  history s' = history s.

(** The registry holds distinct, allocated accounts. *)
Definition sound_registry (s : State) : Prop :=
  NoDup (Map_values (accounts s)) /\
  Forall (fun r => (r < length (heap s))%nat) (Map_values (accounts s)).

(** What holds of every state of a session that opened accounts with the
    balances [opens]. *)
Definition session_inv (opens : list number) (s : State) : Prop :=
  Forall2 sound_account opens (heap s) /\ sound_registry s.

(** What one accrual does to an account: when the interest its strategy
    computes is positive, the balance grows by it and one [INTEREST] entry
    of that amount is logged; otherwise nothing changes. *)
Definition accrued (a a' : BankAccount) : Prop :=
  let interest := calculateInterest (acc_interestStrategy a) (acc_balance a) in
  if (interest >? zero)%num
  then exists t,
         acc_balance a' = (acc_balance a + interest)%num /\
         acc_transactions a' = acc_transactions a ++ [t] /\
         tx_type t = INTEREST /\ tx_amount t = interest /\
         tx_description t = "Interest Credited" /\
         acc_id a' = acc_id a /\ acc_name a' = acc_name a /\
         acc_type a' = acc_type a /\
         acc_interestStrategy a' = acc_interestStrategy a
  else a' = a.

(** ** What the recording methods do to a state *)

(** [records s s']: [s'] comes from [s] by any number of recordings, each
    by one of [deposit], [withdraw] and [applyInterest] on an allocated
    account: one identifier is drawn, the balance moves by the signed
    amount of the new entry, whose kind is a recorded one and whose amount
    is not [<= 0]. *)
Inductive records : State -> State -> Prop :=
| records_refl s : records s s
| records_step s this a type amount description s' :
    heap s !! this = Some a ->
    recorded_kind type = true ->
    (amount <=? zero)%num = false ->
    records (book s this a
               (post (acc_balance a) (entry s a type amount description))
               type amount description) s' ->
    records s s'.

(** [a'] is a later state of the account object [a]: the same identity,
    name, category and strategy, and a log that extends the log of [a]. *)
Definition continues (a a' : BankAccount) : Prop :=
  acc_id a' = acc_id a /\
  acc_name a' = acc_name a /\
  acc_type a' = acc_type a /\
  acc_interestStrategy a' = acc_interestStrategy a /\
  acc_transactions a `prefix_of` acc_transactions a'.

(** Every entry of the log of [a] names [a] as its account, is of a
    recorded kind and has an amount that is not [<= 0]. *)
Definition well_logged (a : BankAccount) : Prop :=
  Forall (fun t => tx_accountId t = acc_id a /\
                   recorded_kind (tx_type t) = true /\
                   (tx_amount t <=? zero)%num = false)
         (acc_transactions a).

(** The registry that holds every account of the heap under its
    identifier, in order of creation. *)
Definition full_registry (h : list BankAccount) : list (string * ref) :=
  zip (acc_id <$> h) (seq 0 (length h)).

(** Every identifier in a heap: those of the accounts, then those of the
    entries of their logs. *)
Definition all_ids (h : list BankAccount) : list string :=
  (acc_id <$> h) ++ (h ≫= fun a => tx_id <$> acc_transactions a).

(** What holds of the identifiers in a session whose supply is [u]. *)
Definition fresh_ids (u : nat -> string) (s : State) : Prop :=
  uuid_supply s = u /\
  accounts s = full_registry (heap s) /\
  exists ixs : list nat,
    all_ids (heap s) ≡ₚ u <$> ixs /\ NoDup ixs /\
    Forall (fun i => (i < draws s)%nat) ixs.

(** ** The handlers of [App.tsx] *)

(** The part of the component's state the handlers write: the bank, the
    [version] counter that [refresh] increments and [errorMsg], here the
    error whose message is shown. *)
Record AppState := mkAppState {
  bankSystem : State;
  version : nat;
  errorMsg : option Error
}.

(** [try { body } catch (e) { setErrorMsg(e.message) }], where [body]
    ends with [refresh(); setErrorMsg(null)] when it returns [true] and
    does nothing more when it returns [false]. *)
Definition handler (body : M bool) (app : AppState) : AppState :=
  match body (bankSystem app) with
  | (inr true, s') => mkAppState s' (S (version app)) None
  | (inr false, s') => mkAppState s' (version app) (errorMsg app)
  | (inl e, s') => mkAppState s' (version app) (Some e)
  end.

Definition handleDeposit (accountId : string) (amount : number) : AppState -> AppState :=
  handler (let* acc := getAccount accountId in
           match acc with
           | Some acc => executeCommand (DepositCommand acc amount);; ret true
           | None => ret false
           end).

Definition handleWithdraw (accountId : string) (amount : number) : AppState -> AppState :=
  handler (let* acc := getAccount accountId in
           match acc with
           | Some acc => executeCommand (WithdrawCommand acc amount);; ret true
           | None => ret false
           end).

Definition handleTransfer (fromId toId : string) (amount : number) : AppState -> AppState :=
  handler (let* from := getAccount fromId in
           let* to := getAccount toId in
           match from, to with
           | Some from, Some to =>
               executeCommand (TransferCommand from to amount);; ret true
           | _, _ => ret false
           end).

Definition handleUndo : AppState -> AppState :=
  handler (undoLastCommand;; ret true).

(** ** A concrete environment and the demo accounts of [App.tsx] *)

Module Demo.

Fixpoint tally (n : nat) : string :=
  match n with
  | O => ""
  | S n' => "i" +:+ tally n'
  end.

Definition uuids (n : nat) : string := "uuid-" +:+ tally n.
Definition dates (n : nat) : Z := Z.of_nat n.

Definition start : State := initial uuids dates.

(** [acc1], [acc2] and [acc3] of [App.tsx]. *)
Definition opened : list Call :=
  [ CreateAccount "John's Savings" SAVINGS (of_Z 1000);
    CreateAccount "John's Checking" CHECKING (of_Z 500);
    CreateAccount "Business Ops" CHECKING (of_Z 2500) ].

Definition bank : State := run opened start.

(** An account opened below zero, then credited. *)
Definition overdrawn : State :=
  run [ CreateAccount "Overdrawn" CHECKING (of_Z (-500));
        ExecuteCommand (DepositCommand 0%nat (of_Z 200)) ] start.

(** The demo bank after a deposit of 12.04 into the checking account and
    its undo. *)
Definition round_trip : State :=
  run [ ExecuteCommand (DepositCommand 1%nat lit_12_04); UndoLastCommand ] bank.

(** An account opened with 0.3, after a withdrawal of 0.03 and its undo. *)
Definition small : State :=
  run [ CreateAccount "Small" CHECKING lit_0_3 ] start.

Definition small_round_trip : State :=
  run [ ExecuteCommand (WithdrawCommand 0%nat lit_0_03); UndoLastCommand ] small.

Definition acc1 : ref := 0%nat.
Definition acc2 : ref := 1%nat.
Definition acc3 : ref := 2%nat.

End Demo.

(** * Facts about binary64 comparison and subtraction *)

(** The decimal literals are the correctly rounded quotients. *)
Lemma literals_correct :
  lit_0_03 = Num.div (of_Z 3) (of_Z 100) /\
  lit_0_1 = Num.div (of_Z 1) (of_Z 10) /\
  lit_0_2 = Num.div (of_Z 2) (of_Z 10) /\
  lit_0_3 = Num.div (of_Z 3) (of_Z 10) /\
  lit_12_04 = Num.div (of_Z 1204) (of_Z 100).
Proof. vm_compute. repeat split. Qed.

(** Three percent of one thousand is thirty, exactly. *)
Lemma interest_on_1000 :
  (of_Z 1000 * rate)%num = of_Z 30 /\ (of_Z 1000 + of_Z 30)%num = of_Z 1030.
Proof. vm_compute. split; reflexivity. Qed.

Section Binary64.

Lemma compare_cont_swap (p q : positive) :
  Pos.compare_cont Eq q p = CompOpp (Pos.compare_cont Eq p q).
Proof. now rewrite (Pos.compare_cont_antisym p q Eq). Qed.

Lemma SFcompare_swap (x y : number) :
  SFcompare y x = CompOpp <$> SFcompare x y.
Proof.
  destruct x as [sx|sx| |sx mx ex], y as [sy|sy| |sy my ey]; simpl;
    try reflexivity; try (destruct sx; reflexivity); try (destruct sy; reflexivity);
    try (destruct sx, sy; reflexivity).
  change (PosDef.Pos.compare_cont Eq my mx) with (Pos.compare_cont Eq my mx).
  change (PosDef.Pos.compare_cont Eq mx my) with (Pos.compare_cont Eq mx my).
  rewrite (Z.compare_antisym ex ey), (compare_cont_swap mx my).
  destruct sx, sy; simpl; try reflexivity;
    destruct (ex ?= ey); simpl; reflexivity.
Qed.

Lemma le_not_gt (x y : number) : (x <=? y)%num = true -> (x >? y)%num = false.
Proof.
  unfold Num.le, Num.gt, SFleb, SFltb. rewrite (SFcompare_swap x y).
  destruct (SFcompare x y) as [[]|]; simpl; congruence.
Qed.

Lemma gt_not_le (x y : number) : (x >? y)%num = true -> (x <=? y)%num = false.
Proof.
  unfold Num.le, Num.gt, SFleb, SFltb. rewrite (SFcompare_swap x y).
  destruct (SFcompare x y) as [[]|]; simpl; congruence.
Qed.

(** Rounding keeps the sign of what it rounds. *)
Lemma binary_round_aux_sign (sx : bool) (m : Z) (e : Z) (l : location) :
  match binary_round_aux prec emax sx m e l with
  | S754_zero s | S754_infinity s | S754_finite s _ _ => s = sx
  | S754_nan => True
  end.
Proof.
  unfold binary_round_aux.
  destruct (shr_fexp prec emax m e l) as [mrs' e'].
  destruct (shr_fexp prec emax _ e' loc_Exact) as [mrs'' e''].
  destruct (shr_m mrs''); [reflexivity | | exact I].
  destruct (e'' <=? Num.emax - Num.prec)%Z; reflexivity.
Qed.

Lemma binary_normalize_nonneg (m e : Z) :
  (0 <= m)%Z -> (binary_normalize prec emax m e false <? zero)%num = false.
Proof.
  intros Hm. destruct m as [|p|p]; [reflexivity| |lia].
  unfold binary_normalize, binary_round.
  destruct (shl_align p e _) as [mz ez].
  pose proof (binary_round_aux_sign false (Z.pos mz) ez loc_Exact) as H.
  destruct (binary_round_aux prec emax false (Z.pos mz) ez loc_Exact); subst; reflexivity.
Qed.

Lemma digits2_pos_bounds (m : positive) :
  (2 ^ (Z.pos (digits2_pos m) - 1) <= Z.pos m < 2 ^ Z.pos (digits2_pos m))%Z.
Proof.
  induction m as [m IH|m IH|]; simpl digits2_pos.
  - rewrite Pos2Z.inj_succ, !Z.pow_succ_r by lia.
    replace (Z.succ (Z.pos (digits2_pos m)) - 1)%Z
      with (Z.succ (Z.pos (digits2_pos m) - 1))%Z by lia.
    rewrite Z.pow_succ_r by lia. lia.
  - rewrite Pos2Z.inj_succ, !Z.pow_succ_r by lia.
    replace (Z.succ (Z.pos (digits2_pos m)) - 1)%Z
      with (Z.succ (Z.pos (digits2_pos m) - 1))%Z by lia.
    rewrite Z.pow_succ_r by lia. lia.
  - simpl. lia.
Qed.

Lemma iter_xO_pow (m d : positive) :
  Z.pos (Pos.iter xO m d) = (Z.pos m * 2 ^ Z.pos d)%Z.
Proof.
  induction d as [|d IH] using Pos.peano_ind.
  - simpl. lia.
  - rewrite Pos.iter_succ, Pos2Z.inj_succ, Z.pow_succ_r by lia.
    rewrite Pos2Z.inj_xO, IH. lia.
Qed.

(** Of two well-formed positive finite numbers, the one with the larger
    exponent is the larger. *)
Lemma bounded_exponent_order (m1 m2 : positive) (e1 e2 : Z) :
  bounded prec emax m1 e1 = true -> bounded prec emax m2 e2 = true ->
  (e1 < e2)%Z -> (Z.pos m1 < Z.pos m2 * 2 ^ (e2 - e1))%Z.
Proof.
  unfold bounded, canonical_mantissa, fexp, SpecFloat.emin, prec, emax.
  intros H1 H2 He.
  apply andb_prop in H1 as [H1 _]. apply andb_prop in H2 as [H2 _].
  apply Z.eqb_eq in H1, H2.
  pose proof (digits2_pos_bounds m1) as [_ B1].
  pose proof (digits2_pos_bounds m2) as [B2 _].
  assert (D1 : (Z.pos (digits2_pos m1) <= 53)%Z) by lia.
  assert (D2 : Z.pos (digits2_pos m2) = 53%Z) by lia.
  rewrite D2 in B2.
  assert (Z.pos m1 < 2 ^ 53)%Z.
  { eapply Z.lt_le_trans; [exact B1|]. apply Z.pow_le_mono_r; lia. }
  assert (2 ^ 1 <= 2 ^ (e2 - e1))%Z by (apply Z.pow_le_mono_r; lia).
  change (2 ^ (53 - 1))%Z with 4503599627370496%Z in B2.
  change (2 ^ 53)%Z with 9007199254740992%Z in *.
  change (2 ^ 1)%Z with 2%Z in *. nia.
Qed.

(** The guard of [withdraw] keeps the difference from being negative:
    when [amount <= 0] and [amount > balance] are both false,
    [balance - amount < 0] is false. *)
Lemma sub_guard_nonneg (balance amount : number) :
  is_number balance = true -> is_number amount = true ->
  (amount <=? zero)%num = false -> (amount >? balance)%num = false ->
  (balance - amount <? zero)%num = false.
Proof.
  intros Vb Va Hpos Hle.
  destruct amount as [sa|sa| |sa ma ea], balance as [sb|sb| |sb mb eb];
    try discriminate Hpos; try reflexivity;
    try (destruct sa; discriminate Hpos);
    try (destruct sa, sb; try discriminate Hpos; try discriminate Hle; reflexivity).
  destruct sa; [discriminate Hpos|]. destruct sb; [discriminate Hle|].
  unfold Num.gt, SFltb in Hle. simpl in Hle.
  unfold Num.sub, SFsub, cond_Zopp.
  apply binary_normalize_nonneg.
  simpl in Va, Vb. fold prec emax in Va, Vb.
  unfold shl_align.
  destruct (Z.compare_spec eb ea) as [E|E|E]; [subst eb| discriminate Hle |].
  - rewrite Z.min_id, Z.sub_diag. simpl.
    change (PosDef.Pos.compare_cont Eq mb ma) with (Pos.compare mb ma) in Hle.
    destruct (Pos.compare_spec mb ma); try discriminate Hle; lia.
  - rewrite Z.min_r by lia. rewrite Z.sub_diag.
    pose proof (bounded_exponent_order ma mb ea eb Va Vb E) as B.
    destruct (ea - eb)%Z as [|d|d] eqn:D; try lia. simpl fst.
    rewrite iter_xO_pow. replace (Z.pos d) with (eb - ea)%Z by lia. lia.
Qed.

End Binary64.

(** * Whole numbers below 2^53 are exact *)

Section WholeNumbers.

(** The digits of a shifted mantissa. *)
Lemma digits2_pos_iter (m d : positive) :
  Z.pos (digits2_pos (Pos.iter xO m d)) = Z.pos (digits2_pos m) + Z.pos d.
Proof.
  induction d as [|d IH] using Pos.peano_ind.
  - simpl. lia.
  - rewrite Pos.iter_succ. simpl digits2_pos. rewrite Pos2Z.inj_succ, IH. lia.
Qed.

(** Shifting right what was shifted left. *)
Lemma iter_pos_shr_1 (n m : positive) :
  SpecFloat.iter_pos shr_1 n (Build_shr_record (Z.pos (Pos.iter xO m n)) false false) =
  Build_shr_record (Z.pos m) false false.
Proof.
  revert m. induction n as [n IH|n IH|]; intros m; simpl.
  - rewrite !IH. reflexivity.
  - rewrite !IH. reflexivity.
  - reflexivity.
Qed.

Lemma shift_spec (m : positive) (k : Z) :
  0 <= k -> Z.pos (shift m k) = Z.pos m * 2 ^ k.
Proof.
  intros Hk. destruct k as [|p|p]; simpl shift; [simpl; lia| |lia].
  apply iter_xO_pow.
Qed.

Lemma shift_unique (m s : positive) (k : Z) :
  0 <= k -> Z.pos s = Z.pos m * 2 ^ k -> s = shift m k.
Proof.
  intros Hk Hs. apply Pos2Z.inj. now rewrite shift_spec.
Qed.

Lemma shift_digits (m : positive) (k : Z) :
  0 <= k -> Z.pos (digits2_pos (shift m k)) = Z.pos (digits2_pos m) + k.
Proof.
  intros Hk. destruct k as [|p|p]; simpl shift; [lia| |lia].
  apply digits2_pos_iter.
Qed.

Lemma fexp_normal (d e : Z) :
  -1074 <= d + e - 53 -> fexp prec emax (d + e) = d + e - 53.
Proof. unfold fexp, emin, prec, emax. lia. Qed.

Lemma shr_fexp_canonical (m : positive) (e : Z) :
  Z.pos (digits2_pos m) = 53 -> -1074 <= e ->
  shr_fexp prec emax (Z.pos m) e loc_Exact =
    (Build_shr_record (Z.pos m) false false, e).
Proof.
  intros Hd He. unfold shr_fexp. cbn [Zdigits2 shr_record_of_loc].
  rewrite Hd, fexp_normal by lia.
  replace (53 + e - 53 - e) with 0 by lia. reflexivity.
Qed.

Lemma round_canonical (m : positive) (e : Z) :
  Z.pos (digits2_pos m) = 53 -> -1074 <= e <= 971 ->
  binary_round_aux prec emax false (Z.pos m) e loc_Exact = S754_finite false m e.
Proof.
  intros Hd He. unfold binary_round_aux.
  rewrite shr_fexp_canonical by lia. cbn [shr_m loc_of_shr_record round_nearest_even].
  rewrite shr_fexp_canonical by lia. cbn [shr_m].
  replace (e <=? emax - prec) with true by (symmetry; apply Z.leb_le; unfold emax, prec; lia).
  reflexivity.
Qed.

(** Rounding an exact multiple: the mantissa [m * 2^n] at exponent [e]
    is the mantissa [m] at exponent [e + n]. *)
Lemma round_shifted (m n : positive) (e : Z) :
  Z.pos (digits2_pos m) = 53 -> -1074 <= e + Z.pos n <= 971 ->
  binary_round_aux prec emax false (Z.pos (Pos.iter xO m n)) e loc_Exact =
    S754_finite false m (e + Z.pos n).
Proof.
  intros Hd He. unfold binary_round_aux.
  assert (Hs : shr_fexp prec emax (Z.pos (Pos.iter xO m n)) e loc_Exact =
               (Build_shr_record (Z.pos m) false false, e + Z.pos n)).
  { unfold shr_fexp. cbn [Zdigits2 shr_record_of_loc].
    rewrite digits2_pos_iter, Hd.
    replace (53 + Z.pos n + e) with (53 + (e + Z.pos n)) by lia.
    rewrite fexp_normal by lia.
    replace (53 + (e + Z.pos n) - 53 - e) with (Z.pos n) by lia.
    unfold shr. now rewrite iter_pos_shr_1. }
  rewrite Hs. cbn [shr_m loc_of_shr_record round_nearest_even].
  rewrite shr_fexp_canonical by lia. cbn [shr_m].
  replace (e + Z.pos n <=? emax - prec) with true
    by (symmetry; apply Z.leb_le; unfold emax, prec; lia).
  reflexivity.
Qed.

Lemma normalize_integer (v S : positive) (K : Z) :
  0 <= K <= 1000 ->
  Z.pos S = Z.pos v * 2 ^ K ->
  Z.pos (digits2_pos v) <= 53 ->
  binary_normalize prec emax (Z.pos S) (- K) false = canon v.
Proof.
  intros HK HS Hd. set (d := Z.pos (digits2_pos v)) in *.
  assert (Hd1 : 1 <= d) by (unfold d; lia).
  apply shift_unique in HS; [|lia]. subst S.
  unfold binary_normalize, binary_round.
  rewrite shift_digits by lia. fold d.
  replace (d + K + - K) with (d + 0) by lia.
  rewrite fexp_normal by lia. unfold shl_align, canon. fold d.
  destruct (d + 0 - 53 - - K) as [|t|t] eqn:Ht.
  - (* already canonical *)
    rewrite round_canonical; [|rewrite shift_digits by lia; fold d; lia|lia].
    replace K with (53 - d) by lia. f_equal; lia.
  - (* shift right by t *)
    assert (HM : shift v K = Pos.iter xO (shift v (53 - d)) t).
    { change (Pos.iter xO (shift v (53 - d)) t) with (shift (shift v (53 - d)) (Z.pos t)).
      apply shift_unique; [lia|]. rewrite !shift_spec by lia.
      rewrite <- Z.mul_assoc, <- Z.pow_add_r by lia. f_equal. f_equal. lia. }
    rewrite HM, round_shifted; [|rewrite shift_digits by lia; fold d; lia|lia].
    f_equal; lia.
  - (* shift left by t *)
    assert (HM : Pos.iter xO (shift v K) t = shift v (53 - d)).
    { change (Pos.iter xO (shift v K) t) with (shift (shift v K) (Z.pos t)).
      apply shift_unique; [lia|]. rewrite !shift_spec by lia.
      rewrite <- Z.mul_assoc, <- Z.pow_add_r by lia. f_equal. f_equal. lia. }
    rewrite HM, round_canonical; [|rewrite shift_digits by lia; fold d; lia|lia].
    f_equal; lia.
Qed.

Lemma digits_le_53 (v : positive) : Z.pos v < 2 ^ 53 -> Z.pos (digits2_pos v) <= 53.
Proof.
  intros Hv. pose proof (digits2_pos_bounds v) as [Hlo _].
  destruct (Z_le_gt_dec (Z.pos (digits2_pos v)) 53) as [|Hgt]; [assumption|].
  assert (2 ^ 53 <= 2 ^ (Z.pos (digits2_pos v) - 1)) by (apply Z.pow_le_mono_r; lia).
  lia.
Qed.

Lemma of_Z_pos (v : positive) : Z.pos v < 2 ^ 53 -> of_Z (Z.pos v) = canon v.
Proof.
  intros Hv. apply (normalize_integer v v 0); [lia|simpl; lia|now apply digits_le_53].
Qed.

Lemma shl_align_spec (m : positive) (e ez : Z) :
  ez <= e -> Z.pos (fst (shl_align m e ez)) = Z.pos m * 2 ^ (e - ez).
Proof.
  intros He. unfold shl_align. destruct (ez - e) as [|p|p] eqn:Hp; simpl fst.
  - replace (e - ez) with 0 by lia. simpl. lia.
  - lia.
  - rewrite iter_xO_pow. f_equal. f_equal. lia.
Qed.

Lemma canon_mantissa (v : positive) :
  Z.pos v < 2 ^ 53 ->
  exists m d, canon v = S754_finite false m (d - 53) /\
              1 <= d <= 53 /\ d = Z.pos (digits2_pos v) /\
              Z.pos m = Z.pos v * 2 ^ (53 - d).
Proof.
  intros Hv. pose proof (digits_le_53 v Hv) as Hd.
  exists (shift v (53 - Z.pos (digits2_pos v))), (Z.pos (digits2_pos v)).
  split; [reflexivity|]. split; [lia|]. split; [reflexivity|].
  apply shift_spec. lia.
Qed.

Lemma of_Z_zero : of_Z 0 = S754_zero false.
Proof. reflexivity. Qed.

Lemma add_integers (x y : Z) :
  0 <= x -> 0 <= y -> x + y < 2 ^ 53 ->
  (of_Z x + of_Z y)%num = of_Z (x + y).
Proof.
  intros Hx Hy Hxy.
  destruct x as [|x|x]; [|
    |lia].
  - destruct y as [|y|y]; [reflexivity| |lia].
    rewrite of_Z_zero, Z.add_0_l, of_Z_pos by lia. reflexivity.
  - destruct y as [|y|y]; [| |lia].
    + rewrite Z.add_0_r, of_Z_zero, of_Z_pos by lia. reflexivity.
    + rewrite (of_Z_pos x), (of_Z_pos y) by lia.
      destruct (canon_mantissa x) as (mx & dx & -> & Hdx & _ & Hmx); [lia|].
      destruct (canon_mantissa y) as (my & dy & -> & Hdy & _ & Hmy); [lia|].
      unfold Num.add, SFadd, cond_Zopp.
      set (ez := Z.min (dx - 53) (dy - 53)).
      assert (Hsum : Z.pos (fst (shl_align mx (dx - 53) ez)) +
                     Z.pos (fst (shl_align my (dy - 53) ez)) =
                     Z.pos (x + y) * 2 ^ (- ez)).
      { rewrite !shl_align_spec by (unfold ez; lia). rewrite Hmx, Hmy.
        rewrite <- !Z.mul_assoc, <- !Z.pow_add_r by (unfold ez; lia).
        replace (53 - dx + (dx - 53 - ez)) with (- ez) by lia.
        replace (53 - dy + (dy - 53 - ez)) with (- ez) by lia.
        rewrite Pos2Z.inj_add. lia. }
      change (Z.pos x + Z.pos y) with (Z.pos (x + y)) in *.
      rewrite (of_Z_pos (x + y)) by (rewrite Pos2Z.inj_add; lia).
      replace ez with (- (- ez)) at 3 by lia.
      apply normalize_integer; [unfold ez; lia|exact Hsum|].
      apply digits_le_53. rewrite Pos2Z.inj_add. lia.
Qed.

Lemma sub_integers (x y : Z) :
  0 <= y <= x -> x < 2 ^ 53 ->
  (of_Z x - of_Z y)%num = of_Z (x - y).
Proof.
  intros Hy Hx.
  destruct y as [|y|y]; [|
    |lia].
  - rewrite Z.sub_0_r, of_Z_zero. destruct x as [|x|x]; [reflexivity| |lia].
    rewrite of_Z_pos by lia. reflexivity.
  - destruct x as [|x|x]; [lia| |lia].
    rewrite (of_Z_pos x), (of_Z_pos y) by lia.
    destruct (canon_mantissa x) as (mx & dx & -> & Hdx & _ & Hmx); [lia|].
    destruct (canon_mantissa y) as (my & dy & -> & Hdy & _ & Hmy); [lia|].
    unfold Num.sub, SFsub, cond_Zopp.
    set (ez := Z.min (dx - 53) (dy - 53)).
    assert (Hdiff : Z.pos (fst (shl_align mx (dx - 53) ez)) -
                    Z.pos (fst (shl_align my (dy - 53) ez)) =
                    (Z.pos x - Z.pos y) * 2 ^ (- ez)).
    { rewrite !shl_align_spec by (unfold ez; lia). rewrite Hmx, Hmy.
      rewrite <- !Z.mul_assoc, <- !Z.pow_add_r by (unfold ez; lia).
      replace (53 - dx + (dx - 53 - ez)) with (- ez) by lia.
      replace (53 - dy + (dy - 53 - ez)) with (- ez) by lia.
      lia. }
    assert (Hpow : 0 < 2 ^ (- ez)) by (apply Z.pow_pos_nonneg; unfold ez; lia).
    rewrite Hdiff.
    destruct (Z.pos x - Z.pos y) as [|v|v] eqn:Hv; [reflexivity| |lia].
    rewrite (of_Z_pos v) by lia.
    destruct (Z.pos v * 2 ^ (- ez)) as [|S|S] eqn:HS; [lia| |lia].
    replace ez with (- (- ez)) at 1 by lia.
    apply normalize_integer; [unfold ez; lia|now symmetry|].
    apply digits_le_53. lia.
Qed.

Lemma digits_mono (x y : positive) :
  (x <= y)%positive -> Z.pos (digits2_pos x) <= Z.pos (digits2_pos y).
Proof.
  intros Hxy. pose proof (digits2_pos_bounds x) as [Hx _].
  pose proof (digits2_pos_bounds y) as [_ Hy].
  destruct (Z_le_gt_dec (Z.pos (digits2_pos x)) (Z.pos (digits2_pos y))) as [|Hgt];
    [assumption|].
  assert (2 ^ Z.pos (digits2_pos y) <= 2 ^ (Z.pos (digits2_pos x) - 1))
    by (apply Z.pow_le_mono_r; lia).
  lia.
Qed.

(** The order of integers is the order of their representations. *)
Lemma lt_integers (x y : Z) :
  0 <= x <= y -> y < 2 ^ 53 -> (of_Z x >? of_Z y)%num = false.
Proof.
  intros Hx Hy.
  destruct x as [|x|x]; [|
    |lia].
  - rewrite of_Z_zero. destruct y as [|y|y]; [reflexivity| |lia].
    rewrite of_Z_pos by lia. reflexivity.
  - destruct y as [|y|y]; [lia| |lia].
    rewrite (of_Z_pos x), (of_Z_pos y) by lia.
    destruct (canon_mantissa x) as (mx & dx & -> & Hdx & Hdx' & Hmx); [lia|].
    destruct (canon_mantissa y) as (my & dy & -> & Hdy & Hdy' & Hmy); [lia|].
    assert (Hd : dx <= dy) by (subst dx dy; apply digits_mono; lia).
    clear Hdx' Hdy'.
    unfold Num.gt, SFltb, SFcompare.
    destruct (Z.compare_spec (dy - 53) (dx - 53)) as [E|E|E]; [|lia|reflexivity].
    assert (dx = dy) by lia. subst dy.
    change (PosDef.Pos.compare_cont Eq my mx) with (Pos.compare my mx).
    destruct (Pos.compare_spec my mx) as [|Hlt|]; try reflexivity.
    assert (0 < 2 ^ (53 - dx)) by (apply Z.pow_pos_nonneg; lia).
    assert (Hm : Z.pos my < Z.pos mx) by lia.
    rewrite Hmx, Hmy in Hm. apply Z.mul_lt_mono_pos_r in Hm; lia.
Qed.

End WholeNumbers.


(** * The account methods *)

Section Account.

Variables (s : State) (this : ref) (a : BankAccount).
Hypothesis Hthis : heap s !! this = Some a.

Lemma load_eq : load this s = (inr a, s).
Proof using Hthis. unfold load. now rewrite Hthis. Qed.

Lemma this_allocated : (this < length (heap s))%nat.
Proof using Hthis. eapply lookup_lt_Some, Hthis. Qed.

Lemma deposit_eq amount description :
  (amount <=? zero)%num = false ->
  deposit this amount description s =
    (inr tt, book s this a (acc_balance a + amount)%num DEPOSIT amount description).
Proof using Hthis.
  intros Hpos. unfold deposit. rewrite Hpos.
  unfold bind at 1. unfold bind at 1. rewrite load_eq.
  unfold store, modify.
  unfold addTransaction, bind, uuidv4, load, new_Date, gets, store, modify. simpl.
  rewrite list_lookup_insert_eq by apply this_allocated.
  unfold book, booked, entry, set_heap, set_draws. simpl.
  now rewrite list_insert_insert_eq.
Qed.

Lemma withdraw_eq amount description :
  (amount <=? zero)%num = false -> (amount >? acc_balance a)%num = false ->
  withdraw this amount description s =
    (inr tt, book s this a (acc_balance a - amount)%num WITHDRAW amount description).
Proof using Hthis.
  intros Hpos Hle. unfold withdraw. rewrite Hpos.
  unfold bind at 1. rewrite load_eq, Hle.
  unfold bind at 1. unfold store, modify.
  unfold addTransaction, bind, uuidv4, load, new_Date, gets, store, modify. simpl.
  rewrite list_lookup_insert_eq by apply this_allocated.
  unfold book, booked, entry, set_heap, set_draws. simpl.
  now rewrite list_insert_insert_eq.
Qed.

Lemma withdraw_insufficient amount description :
  (amount <=? zero)%num = false -> (amount >? acc_balance a)%num = true ->
  withdraw this amount description s =
    (inl (InsufficientFunds (acc_balance a) amount), s).
Proof using Hthis.
  intros Hpos Hgt. unfold withdraw. rewrite Hpos.
  unfold bind. now rewrite load_eq, Hgt.
Qed.

End Account.

(** The methods in closed form, whatever the reference designates. *)

Lemma deposit_cases this amount description s :
  deposit this amount description s =
    if (amount <=? zero)%num then (inl DepositNotPositive, s)
    else match heap s !! this with
         | Some a =>
             (inr tt, book s this a (acc_balance a + amount)%num DEPOSIT amount description)
         | None => (inl NullReference, s)
         end.
Proof.
  destruct (amount <=? zero)%num eqn:Hpos.
  - unfold deposit. now rewrite Hpos.
  - destruct (heap s !! this) as [a|] eqn:Ha.
    + now apply deposit_eq.
    + unfold deposit, bind, load. now rewrite Hpos, Ha.
Qed.

Lemma withdraw_cases this amount description s :
  withdraw this amount description s =
    if (amount <=? zero)%num then (inl WithdrawNotPositive, s)
    else match heap s !! this with
         | Some a =>
             if (amount >? acc_balance a)%num
             then (inl (InsufficientFunds (acc_balance a) amount), s)
             else (inr tt, book s this a (acc_balance a - amount)%num WITHDRAW amount description)
         | None => (inl NullReference, s)
         end.
Proof.
  destruct (amount <=? zero)%num eqn:Hpos.
  - unfold withdraw. now rewrite Hpos.
  - destruct (heap s !! this) as [a|] eqn:Ha.
    + destruct (amount >? acc_balance a)%num eqn:Hgt.
      * now apply withdraw_insufficient.
      * now apply withdraw_eq.
    + unfold withdraw, bind, load. now rewrite Hpos, Ha.
Qed.

Lemma applyInterest_cases this s :
  applyInterest this s =
    match heap s !! this with
    | Some a =>
        let interest := calculateInterest (acc_interestStrategy a) (acc_balance a) in
        if (interest >? zero)%num
        then (inr interest,
              book s this a (acc_balance a + interest)%num INTEREST interest "Interest Credited")
        else (inr interest, s)
    | None => (inl NullReference, s)
    end.
Proof.
  unfold applyInterest, bind at 1, load.
  destruct (heap s !! this) as [a|] eqn:Ha; [|reflexivity].
  cbv zeta. destruct (_ >? zero)%num; [|reflexivity].
  unfold bind at 1. unfold store, modify.
  unfold bind, addTransaction, bind, uuidv4, load, new_Date, gets, store, modify, ret. simpl.
  rewrite list_lookup_insert_eq by (eapply lookup_lt_Some, Ha).
  unfold book, booked, entry, set_heap, set_draws. simpl.
  now rewrite list_insert_insert_eq.
Qed.

Lemma forceBalanceChange_cases this amount s :
  forceBalanceChange this amount s =
    match heap s !! this with
    | Some a =>
        (inr tt, set_heap (<[this := set_balance (acc_balance a + amount)%num a]> (heap s)) s)
    | None => (inl NullReference, s)
    end.
Proof.
  unfold forceBalanceChange, bind, load, store, modify.
  now destruct (heap s !! this).
Qed.

(** What [book] changes and what it keeps. *)

Lemma book_lookup s this a b type amount description r :
  heap s !! this = Some a ->
  heap (book s this a b type amount description) !! r =
    if decide (r = this) then Some (booked s a b type amount description)
    else heap s !! r.
Proof.
  intros Ha. unfold book. simpl. case_decide as E.
  - subst r. apply list_lookup_insert_eq. eapply lookup_lt_Some, Ha.
  - now apply list_lookup_insert_ne.
Qed.

Lemma book_length s this a b type amount description :
  length (heap (book s this a b type amount description)) = length (heap s).
Proof. unfold book. simpl. apply length_insert. Qed.

(** * Bookkeeping *)

Lemma evolves_trans h1 h2 h3 : evolves h1 h2 -> evolves h2 h3 -> evolves h1 h3.
Proof.
  induction 1 as [|h this a t h' Ha Hk _ IH]; [trivial|].
  intros H3. eapply evolves_step; eauto.
Qed.

Lemma evolves_length h h' : evolves h h' -> length h' = length h.
Proof.
  induction 1 as [|h this a t h' Ha Hk _ IH]; [reflexivity|].
  now rewrite IH, length_insert.
Qed.

Lemma bookkeeping_refl s : bookkeeping s s.
Proof. repeat split. constructor. Qed.

Lemma bookkeeping_trans s1 s2 s3 :
  bookkeeping s1 s2 -> bookkeeping s2 s3 -> bookkeeping s1 s3.
Proof.
  intros (E1 & A1 & H1) (E2 & A2 & H2). repeat split.
  - eapply evolves_trans; eauto.
  - congruence.
  - congruence.
Qed.

Lemma book_bookkeeping s this a b type amount description :
  heap s !! this = Some a ->
  recorded_kind type = true ->
  b = post (acc_balance a) (entry s a type amount description) ->
  bookkeeping s (book s this a b type amount description).
Proof.
  intros Ha Hk ->. repeat split.
  eapply evolves_step with (t := entry s a type amount description); eauto.
  unfold book, booked. simpl. constructor.
Qed.

Lemma deposit_bookkeeping this amount description s :
  bookkeeping s (snd (deposit this amount description s)).
Proof.
  rewrite deposit_cases. destruct (amount <=? zero)%num; [apply bookkeeping_refl|].
  destruct (heap s !! this) as [a|] eqn:Ha; [|apply bookkeeping_refl].
  now apply book_bookkeeping.
Qed.

Lemma withdraw_bookkeeping this amount description s :
  bookkeeping s (snd (withdraw this amount description s)).
Proof.
  rewrite withdraw_cases. destruct (amount <=? zero)%num; [apply bookkeeping_refl|].
  destruct (heap s !! this) as [a|] eqn:Ha; [|apply bookkeeping_refl].
  destruct (amount >? acc_balance a)%num; [apply bookkeeping_refl|].
  now apply book_bookkeeping.
Qed.

Lemma applyInterest_bookkeeping this s :
  bookkeeping s (snd (applyInterest this s)).
Proof.
  rewrite applyInterest_cases.
  destruct (heap s !! this) as [a|] eqn:Ha; [|apply bookkeeping_refl].
  cbv zeta. destruct (_ >? zero)%num; [|apply bookkeeping_refl].
  now apply book_bookkeeping.
Qed.

(** Sequencing two statements that only book. *)
Lemma bind_bookkeeping {A B} (m : M A) (k : A -> M B) s :
  bookkeeping s (snd (m s)) ->
  (forall x s1, bookkeeping s1 (snd (k x s1))) ->
  bookkeeping s (snd (bind m k s)).
Proof.
  intros Hm Hk. unfold bind. destruct (m s) as [[e|x] s1]; simpl in *; [exact Hm|].
  eapply bookkeeping_trans; [exact Hm | apply Hk].
Qed.

Lemma load_bookkeeping r s : bookkeeping s (snd (load r s)).
Proof. unfold load. destruct (heap s !! r); apply bookkeeping_refl. Qed.

Lemma execute_bookkeeping c s : bookkeeping s (snd (execute c s)).
Proof.
  destruct c as [r x|r x|f t x]; simpl.
  - apply deposit_bookkeeping.
  - apply withdraw_bookkeeping.
  - apply bind_bookkeeping; [apply load_bookkeeping|]. intros to s1.
    apply bind_bookkeeping; [apply withdraw_bookkeeping|]. intros _ s2.
    apply bind_bookkeeping; [apply load_bookkeeping|]. intros from s3.
    apply deposit_bookkeeping.
Qed.

Lemma undo_bookkeeping c s : bookkeeping s (snd (undo c s)).
Proof.
  destruct c as [r x|r x|f t x]; simpl.
  - apply withdraw_bookkeeping.
  - apply deposit_bookkeeping.
  - apply bind_bookkeeping; [apply load_bookkeeping|]. intros from s1.
    apply bind_bookkeeping; [apply withdraw_bookkeeping|]. intros _ s2.
    apply bind_bookkeeping; [apply load_bookkeeping|]. intros to s3.
    apply deposit_bookkeeping.
Qed.

Lemma forEach_bookkeeping {A} (f : A -> M unit) (l : list A) s :
  (forall x s1, bookkeeping s1 (snd (f x s1))) ->
  bookkeeping s (snd (forEach f l s)).
Proof.
  intros Hf. revert s. induction l as [|x l IH]; intros s; simpl.
  - apply bookkeeping_refl.
  - apply bind_bookkeeping; [apply Hf|]. intros _ s1. apply IH.
Qed.

Lemma applyInterestToAll_bookkeeping s :
  bookkeeping s (snd (applyInterestToAll s)).
Proof.
  unfold applyInterestToAll, bind at 1, gets.
  apply forEach_bookkeeping. intros r s1.
  apply bind_bookkeeping; [apply applyInterest_bookkeeping|].
  intros _ s2. apply bookkeeping_refl.
Qed.

(** * The invoker's methods in closed form *)

Lemma executeCommand_cases command s :
  executeCommand command s =
    match execute command s with
    | (inr _, s1) => (inr tt, set_history (history s1 ++ [command]) s1)
    | (inl e, s1) => (inl e, s1)
    end.
Proof.
  unfold executeCommand, try_catch, bind, history_push, modify, throw.
  destruct (execute command s) as [[e|[]] s1]; reflexivity.
Qed.

Lemma undoLastCommand_cases s :
  undoLastCommand s =
    match last (history s) with
    | Some command =>
        match undo command (set_history (removelast (history s)) s) with
        | (inr _, s1) => (inr tt, s1)
        | (inl e, s1) => (inl e, set_history (history s1 ++ [command]) s1)
        end
    | None => (inr tt, s)
    end.
Proof.
  unfold undoLastCommand, bind at 1, history_pop.
  destruct (last (history s)) as [command|]; [|reflexivity].
  unfold try_catch, bind, history_push, modify, throw.
  destruct (undo command _) as [[e|[]] s1]; reflexivity.
Qed.

Lemma createAccount_eq name type initialBalance s :
  createAccount name type initialBalance s =
    (inr (length (heap s)),
     mkState (heap s ++ [opened_account s name type initialBalance])
             (uuid_supply s) (date_supply s) (S (draws s))
             (Map_set (uuid_supply s (draws s)) (length (heap s)) (accounts s))
             (history s)).
Proof.
  unfold createAccount, new_BankAccount, bind, uuidv4, alloc, load, modify, ret.
  simpl. rewrite lookup_app_r by lia. rewrite Nat.sub_diag. simpl.
  destruct type; reflexivity.
Qed.

(** * Invariants are kept *)

Lemma sound_account_booked b0 a t :
  sound_account b0 a ->
  recorded_kind (tx_type t) = true ->
  sound_account b0 (set_transactions (acc_transactions a ++ [t])
                      (set_balance (post (acc_balance a) t) a)).
Proof.
  intros (Hb & Hk & Hp) Ht. repeat split; simpl.
  - unfold signed_sum_from in *. rewrite fold_left_app. simpl. now rewrite <- Hb.
  - apply Forall_app. split; [exact Hk|]. now constructor.
  - exact Hp.
Qed.

Lemma evolves_sound opens h h' :
  evolves h h' -> Forall2 sound_account opens h -> Forall2 sound_account opens h'.
Proof.
  induction 1 as [|h this a t h' Ha Hk _ IH]; [trivial|].
  intros Hs. apply IH.
  destruct (Forall2_lookup_r _ _ _ _ _ Hs Ha) as (b0 & Hb0 & Hsa).
  rewrite <- (list_insert_id opens this b0 Hb0).
  apply Forall2_insert; [exact Hs|]. now apply sound_account_booked.
Qed.

Lemma bookkeeping_inv opens s s' :
  bookkeeping s s' -> session_inv opens s -> session_inv opens s'.
Proof.
  intros (He & Ha & _) (Hs & Hn & Hr). split; [|split].
  - eapply evolves_sound; eauto.
  - now rewrite Ha.
  - rewrite Ha, (evolves_length _ _ He). exact Hr.
Qed.

Lemma session_inv_set_history opens h s :
  session_inv opens (set_history h s) <-> session_inv opens s.
Proof. reflexivity. Qed.

Lemma Map_set_values k v m r :
  r ∈ Map_values (Map_set k v m) -> r = v \/ r ∈ Map_values m.
Proof.
  unfold Map_values. induction m as [|[k' v'] m IH]; simpl.
  - intros H. apply list_elem_of_singleton in H. now left.
  - destruct (String.eqb k k'); simpl; intros H; apply elem_of_cons in H as [H|H].
    + now left.
    + right. now apply elem_of_cons; right.
    + right. now apply elem_of_cons; left.
    + destruct (IH H) as [?|?]; [now left|]. right. now apply elem_of_cons; right.
Qed.

Lemma Map_set_NoDup k v m :
  v ∉ Map_values m -> NoDup (Map_values m) -> NoDup (Map_values (Map_set k v m)).
Proof.
  unfold Map_values. induction m as [|[k' v'] m IH]; simpl; intros Hv Hn.
  - apply NoDup_singleton.
  - apply NoDup_cons in Hn as [Hv' Hn]. apply not_elem_of_cons in Hv as [Hne Hv].
    destruct (String.eqb k k'); simpl; apply NoDup_cons; split; auto.
    intros Hin. apply Map_set_values in Hin as [?|?]; [congruence|contradiction].
Qed.

Lemma opened_account_sound s name type b0 :
  sound_account b0 (opened_account s name type b0).
Proof. repeat split. constructor. Qed.

Lemma perform_inv opens c s :
  session_inv opens s -> session_inv (opens ++ opening [c]) (snd (perform c s)).
Proof.
  intros Hinv. destruct c as [name type b0|command| |]; simpl opening;
    rewrite ?app_nil_r.
  - simpl. unfold bind. rewrite createAccount_eq. simpl.
    destruct Hinv as (Hs & Hn & Hr). split; [|split]; simpl.
    + apply Forall2_app; [exact Hs|]. repeat constructor.
    + apply Map_set_NoDup; [|exact Hn].
      intros Hin. rewrite Forall_forall in Hr. specialize (Hr _ Hin). lia.
    + apply Forall_forall. intros r Hin. rewrite length_app. simpl.
      apply Map_set_values in Hin as [->|Hin]; [lia|].
      rewrite Forall_forall in Hr. specialize (Hr _ Hin). lia.
  - simpl. rewrite executeCommand_cases.
    pose proof (execute_bookkeeping command s) as Hb.
    destruct (execute command s) as [[e|[]] s1]; simpl in *.
    + eapply bookkeeping_inv; eauto.
    + apply session_inv_set_history. eapply bookkeeping_inv; eauto.
  - simpl. rewrite undoLastCommand_cases.
    destruct (last (history s)) as [command|]; [|exact Hinv].
    pose proof (undo_bookkeeping command (set_history (removelast (history s)) s)) as Hb.
    destruct (undo command _) as [[e|[]] s1]; simpl in *.
    + apply session_inv_set_history. eapply bookkeeping_inv; eauto.
    + eapply bookkeeping_inv; eauto.
  - simpl. eapply bookkeeping_inv; [apply applyInterestToAll_bookkeeping|exact Hinv].
Qed.

Lemma opening_app calls1 calls2 :
  opening (calls1 ++ calls2) = opening calls1 ++ opening calls2.
Proof.
  induction calls1 as [|c calls1 IH]; [reflexivity|].
  destruct c; simpl; now rewrite ?IH.
Qed.

Lemma run_app calls1 calls2 s : run (calls1 ++ calls2) s = run calls2 (run calls1 s).
Proof. apply fold_left_app. Qed.

Lemma run_inv calls opens s :
  session_inv opens s -> session_inv (opens ++ opening calls) (run calls s).
Proof.
  revert opens s. induction calls as [|c calls IH]; intros opens s Hinv.
  - simpl. now rewrite app_nil_r.
  - replace (opens ++ opening (c :: calls))
      with ((opens ++ opening [c]) ++ opening calls).
    + change (run (c :: calls) s) with (run calls (snd (perform c s))).
      apply IH. now apply perform_inv.
    + rewrite <- app_assoc. f_equal. symmetry. apply (opening_app [c] calls).
Qed.

Lemma initial_inv uuids dates : session_inv [] (initial uuids dates).
Proof. repeat split; constructor. Qed.

Lemma session_invariant calls uuids dates :
  session_inv (opening calls) (run calls (initial uuids dates)).
Proof. apply (run_inv calls [] _ (initial_inv uuids dates)). Qed.

(** * A command that throws has changed nothing *)

Lemma deposit_throws this amount description s e s1 :
  deposit this amount description s = (inl e, s1) -> s1 = s.
Proof.
  rewrite deposit_cases. destruct (amount <=? zero)%num; [congruence|].
  destruct (heap s !! this); congruence.
Qed.

Lemma withdraw_throws this amount description s e s1 :
  withdraw this amount description s = (inl e, s1) -> s1 = s.
Proof.
  rewrite withdraw_cases. destruct (amount <=? zero)%num; [congruence|].
  destruct (heap s !! this) as [a|]; [|congruence].
  destruct (amount >? acc_balance a)%num; congruence.
Qed.

(** After a successful [withdraw], a [deposit] of the same amount on an
    allocated account goes through: this is why neither leg order of a
    transfer can stop half way. *)
Lemma withdraw_then_deposit w d amount dw dd s s1 a :
  withdraw w amount dw s = (inr tt, s1) ->
  heap s !! d = Some a ->
  exists s2, deposit d amount dd s1 = (inr tt, s2).
Proof.
  rewrite withdraw_cases. destruct (amount <=? zero)%num eqn:Hpos; [congruence|].
  destruct (heap s !! w) as [aw|] eqn:Hw; [|congruence].
  destruct (amount >? acc_balance aw)%num; [congruence|].
  intros [= <-] Hd. rewrite deposit_cases, Hpos, (book_lookup _ _ _ _ _ _ _ _ Hw).
  case_decide; eauto. rewrite Hd. eauto.
Qed.

Lemma execute_transfer_legs f t amount :
  execute (TransferCommand f t amount) =
    two_legs f t amount (fun n => "Transfer to " +:+ n) (fun n => "Transfer from " +:+ n).
Proof. reflexivity. Qed.

Lemma undo_transfer_legs f t amount :
  undo (TransferCommand f t amount) =
    two_legs t f amount (fun n => "UNDO: Revert Transfer from " +:+ n)
                        (fun n => "UNDO: Revert Transfer to " +:+ n).
Proof. reflexivity. Qed.

Lemma two_legs_throws w d amount dw dd s e s1 :
  two_legs w d amount dw dd s = (inl e, s1) ->
  s1 = s /\
  (heap s !! d = None /\ e = NullReference \/
   exists ad, heap s !! d = Some ad /\ withdraw w amount (dw (acc_name ad)) s = (inl e, s)).
Proof.
  unfold two_legs, bind at 1, load.
  destruct (heap s !! d) as [ad|] eqn:Hd; [|intros [= <- <-]; auto].
  unfold bind at 1.
  destruct (withdraw w amount (dw (acc_name ad)) s) as [[e'|[]] s'] eqn:Hw.
  - intros [= <- <-]. apply withdraw_throws in Hw as Hs. subst s'. eauto.
  - unfold bind, load.
    assert (Hsome : heap s' !! w ≠ None).
    { revert Hw. rewrite withdraw_cases.
      destruct (amount <=? zero)%num; [congruence|].
      destruct (heap s !! w) as [aw|] eqn:Haw; [|congruence].
      destruct (amount >? acc_balance aw)%num; [congruence|].
      intros [= <-]. rewrite (book_lookup _ _ _ _ _ _ _ _ Haw).
      case_decide; congruence. }
    destruct (heap s' !! w) as [aw'|]; [|congruence].
    destruct (withdraw_then_deposit w d amount _ (dd (acc_name aw')) s s' ad Hw Hd)
      as (s2 & ->). discriminate.
Qed.

Lemma execute_throws c s e s1 : execute c s = (inl e, s1) -> s1 = s.
Proof.
  destruct c as [r x|r x|f t x].
  - apply deposit_throws.
  - apply withdraw_throws.
  - rewrite execute_transfer_legs. intros H. now apply two_legs_throws in H.
Qed.

Lemma undo_throws c s e s1 : undo c s = (inl e, s1) -> s1 = s.
Proof.
  destruct c as [r x|r x|f t x].
  - apply withdraw_throws.
  - apply deposit_throws.
  - rewrite undo_transfer_legs. intros H. now apply two_legs_throws in H.
Qed.

(** * Transfers in closed form *)

Lemma two_legs_cases w d amount dw dd s :
  two_legs w d amount dw dd s =
    match heap s !! d with
    | None => (inl NullReference, s)
    | Some ad =>
        if (amount <=? zero)%num then (inl WithdrawNotPositive, s)
        else match heap s !! w with
             | None => (inl NullReference, s)
             | Some aw =>
                 if (amount >? acc_balance aw)%num
                 then (inl (InsufficientFunds (acc_balance aw) amount), s)
                 else
                   let s1 := book s w aw (acc_balance aw - amount)%num WITHDRAW
                                  amount (dw (acc_name ad)) in
                   let ad1 := if decide (d = w)
                              then booked s aw (acc_balance aw - amount)%num WITHDRAW
                                          amount (dw (acc_name ad))
                              else ad in
                   (inr tt, book s1 d ad1 (acc_balance ad1 + amount)%num DEPOSIT
                                 amount (dd (acc_name aw)))
             end
    end.
Proof.
  unfold two_legs, bind at 1, load.
  destruct (heap s !! d) as [ad|] eqn:Hd; [|reflexivity].
  unfold bind at 1. rewrite withdraw_cases.
  destruct (amount <=? zero)%num eqn:Hpos; [reflexivity|].
  destruct (heap s !! w) as [aw|] eqn:Hw; [|reflexivity].
  destruct (amount >? acc_balance aw)%num eqn:Hgt; [reflexivity|].
  unfold bind, load. cbv zeta.
  rewrite (book_lookup _ _ _ _ _ _ _ w Hw). rewrite decide_True by reflexivity.
  rewrite deposit_cases, Hpos, (book_lookup _ _ _ _ _ _ _ d Hw).
  case_decide; [reflexivity|]. now rewrite Hd.
Qed.

(** * Properties of the specification *)

(** ** Undo with an empty history *)

(** C1, as the code has it: when the history is empty, [undoLastCommand]
    returns normally -- it raises no error -- and the state (every account,
    every log, the history) is what it was. *)
Theorem undo_empty_history_returns (s : State) :
  history s = [] -> undoLastCommand s = (inr tt, s).
Proof. intros H. rewrite undoLastCommand_cases, H. reflexivity. Qed.

Lemma undo_empty_history_returns_witness :
  undoLastCommand Demo.bank = (inr tt, Demo.bank).
Proof. apply undo_empty_history_returns. reflexivity. Defined.

(** C1 as stated fails: on the freshly opened demo bank, whose history is
    empty, [undoLastCommand] does not fail with any error. *)
Lemma undo_empty_history_no_error :
  history Demo.bank = [] /\
  ~ (exists e, fst (undoLastCommand Demo.bank) = inl e).
Proof.
  split; [reflexivity|]. intros [e He].
  rewrite undoLastCommand_cases in He. simpl in He. discriminate He.
Qed.

(** ** Withdrawal *)



(** ** Transfer *)

(** C3, as the code has it: a transfer of [amount] from account [X], of
    balance [bx], to account [Y], of balance [by]. Between two different
    accounts and with [0 < amount <= bx] it goes through: [X] ends at
    [bx - amount], [Y] at [by + amount], the log of each has exactly one
    more entry, a [WITHDRAW] on [X] and a [DEPOSIT] on [Y]. When [X] and
    [Y] are the same account it goes through as well, and that account ends
    at [(bx - amount) + amount] with two more entries. When [amount > bx]
    it throws the error of the withdrawal and the state is unchanged: the
    deposit has not run. *)
Theorem transfer_spec (s : State) (X Y : ref) (ax ay : BankAccount)
    (amount : number) :
  heap s !! X = Some ax ->
  heap s !! Y = Some ay ->
  (X <> Y ->
   (amount <=? acc_balance ax)%num = true -> (amount >? zero)%num = true ->
     exists s' ax' ay' tx ty,
       execute (TransferCommand X Y amount) s = (inr tt, s') /\
       heap s' !! X = Some ax' /\
       heap s' !! Y = Some ay' /\
       acc_balance ax' = (acc_balance ax - amount)%num /\
       acc_balance ay' = (acc_balance ay + amount)%num /\
       acc_transactions ax' = acc_transactions ax ++ [tx] /\
       acc_transactions ay' = acc_transactions ay ++ [ty] /\
       tx_type tx = WITHDRAW /\ tx_amount tx = amount /\
       tx_type ty = DEPOSIT /\ tx_amount ty = amount) /\
  (X = Y ->
   (amount <=? acc_balance ax)%num = true -> (amount >? zero)%num = true ->
     exists s' ax' tw td,
       execute (TransferCommand X Y amount) s = (inr tt, s') /\
       heap s' !! X = Some ax' /\
       acc_balance ax' = (acc_balance ax - amount + amount)%num /\
       acc_transactions ax' = acc_transactions ax ++ [tw; td] /\
       tx_type tw = WITHDRAW /\ tx_amount tw = amount /\
       tx_type td = DEPOSIT /\ tx_amount td = amount) /\
  ((amount >? acc_balance ax)%num = true ->
     exists e,
       execute (TransferCommand X Y amount) s = (inl e, s) /\
       withdraw X amount ("Transfer to " +:+ acc_name ay) s = (inl e, s) /\
       (e = WithdrawNotPositive \/ e = InsufficientFunds (acc_balance ax) amount)).
Proof.
  intros Hx Hy. rewrite execute_transfer_legs, two_legs_cases, withdraw_cases.
  rewrite Hx, Hy. split; [|split].
  - intros Hne Hle Hpos. apply gt_not_le in Hpos. apply le_not_gt in Hle.
    rewrite Hpos, Hle. cbv zeta. rewrite decide_False by congruence.
    eexists _, _, _, _, _. split; [reflexivity|].
    rewrite !book_lookup;
      [|exact Hx|rewrite book_lookup, decide_False by congruence; exact Hy
       |exact Hx|rewrite book_lookup, decide_False by congruence; exact Hy].
    rewrite decide_False by congruence. rewrite decide_True by reflexivity.
    rewrite decide_True by reflexivity.
    split; [reflexivity|]. split; [reflexivity|]. split_and!; reflexivity.
  - intros <- Hle Hpos. apply gt_not_le in Hpos. apply le_not_gt in Hle.
    assert (ay = ax) by congruence. subst ay.
    rewrite Hpos, Hle. cbv zeta. rewrite decide_True by reflexivity.
    assert (Hx1 : heap (book s X ax (acc_balance ax - amount)%num WITHDRAW amount
                          ("Transfer to " +:+ acc_name ax)) !! X =
                  Some (booked s ax (acc_balance ax - amount)%num WITHDRAW amount
                          ("Transfer to " +:+ acc_name ax)))
      by (rewrite (book_lookup _ _ _ _ _ _ _ X Hx), decide_True; reflexivity).
    eexists _, _, _, _. split; [reflexivity|].
    rewrite (book_lookup _ _ _ _ _ _ _ X Hx1), decide_True by reflexivity.
    split; [reflexivity|]. split; [reflexivity|].
    split; [unfold booked; simpl; rewrite <- app_assoc; reflexivity|].
    split_and!; reflexivity.
  - intros Hgt. rewrite Hgt. destruct (amount <=? zero)%num; eauto 6.
Qed.

Lemma transfer_spec_witness :
  exists s' ax' ay' tx ty,
    execute (TransferCommand Demo.acc2 Demo.acc1 (of_Z 300)) Demo.bank = (inr tt, s') /\
    heap s' !! Demo.acc2 = Some ax' /\
    heap s' !! Demo.acc1 = Some ay' /\
    acc_balance ax' = of_Z 200 /\
    acc_balance ay' = of_Z 1300 /\
    acc_transactions ax' = [tx] /\
    acc_transactions ay' = [ty] /\
    tx_type tx = WITHDRAW /\ tx_amount tx = of_Z 300 /\
    tx_type ty = DEPOSIT /\ tx_amount ty = of_Z 300.
Proof.
  refine (proj1 (transfer_spec Demo.bank Demo.acc2 Demo.acc1
    (mkBankAccount "uuid-i" "John's Checking" CHECKING (of_Z 500)
                   CheckingInterestStrategy [])
    (mkBankAccount "uuid-" "John's Savings" SAVINGS (of_Z 1000)
                   SavingsInterestStrategy [])
    (of_Z 300) _ _) _ _ _); try reflexivity. discriminate.
Defined.

(** C3 as stated fails when the two accounts are one: a transfer of 300
    from the demo checking account (balance 500) to itself goes through and
    leaves it at 500, which is neither 200 nor 800, with two new entries. *)
Lemma transfer_between_one_account :
  exists s' a',
    execute (TransferCommand Demo.acc2 Demo.acc2 (of_Z 300)) Demo.bank = (inr tt, s') /\
    (acc_balance <$> heap Demo.bank !! Demo.acc2) = Some (of_Z 500) /\
    (length ∘ acc_transactions <$> heap Demo.bank !! Demo.acc2) = Some 0%nat /\
    (of_Z 300 <=? of_Z 500)%num = true /\ (of_Z 300 >? zero)%num = true /\
    heap s' !! Demo.acc2 = Some a' /\
    acc_balance a' = of_Z 500 /\
    acc_balance a' <> (of_Z 500 - of_Z 300)%num /\
    acc_balance a' <> (of_Z 500 + of_Z 300)%num /\
    length (acc_transactions a') = 2%nat.
Proof.
  eexists _, _. split; [vm_compute; reflexivity|].
  split_and!; try reflexivity; vm_compute; discriminate.
Qed.

(** ** The history holds the commands that went through *)

Lemma last_snoc_inv {A} (l : list A) (x : A) :
  last l = Some x -> l = removelast l ++ [x].
Proof.
  intros H. apply last_Some in H as [l' ->]. now rewrite removelast_last.
Qed.

Lemma perform_history c s x :
  x ∈ history (snd (perform c s)) ->
  x ∈ history s \/
  exists s1, c = ExecuteCommand x /\ execute x s = (inr tt, s1).
Proof.
  destruct c as [name type b0|command| |]; simpl.
  - unfold bind. rewrite createAccount_eq. simpl. auto.
  - rewrite executeCommand_cases.
    pose proof (execute_bookkeeping command s) as (_ & _ & Hh).
    destruct (execute command s) as [[e|[]] s1] eqn:Hex; simpl in *.
    + rewrite Hh. auto.
    + rewrite Hh. intros Hin. apply elem_of_app in Hin as [Hin|Hin]; [auto|].
      apply list_elem_of_singleton in Hin. subst x. right. now exists s1.
  - rewrite undoLastCommand_cases.
    destruct (last (history s)) as [command|] eqn:Hl; [|auto].
    pose proof (undo_bookkeeping command (set_history (removelast (history s)) s))
      as (_ & _ & Hh).
    apply last_snoc_inv in Hl.
    destruct (undo command _) as [[e|[]] s1]; simpl in *; rewrite Hh.
    + rewrite <- Hl. auto.
    + intros Hin. left. rewrite Hl. apply elem_of_app. now left.
  - pose proof (applyInterestToAll_bookkeeping s) as (_ & _ & Hh).
    rewrite Hh. auto.
Qed.

Lemma run_history calls s0 x :
  x ∈ history (run calls s0) ->
  x ∈ history s0 \/
  exists pre post s1,
    calls = pre ++ ExecuteCommand x :: post /\
    execute x (run pre s0) = (inr tt, s1).
Proof.
  induction calls as [|c calls IH] using rev_ind; [now left|].
  rewrite run_app. simpl. intros Hin.
  apply perform_history in Hin as [Hin|(s1 & -> & Hex)].
  - destruct (IH Hin) as [?|(pre & post & s1 & -> & Hex)]; [now left|].
    right. exists pre, (post ++ [c]), s1. split; [|exact Hex].
    now rewrite <- app_assoc.
  - right. exists calls, [], s1. split; [reflexivity|exact Hex].
Qed.

(** C5: [executeCommand] pushes the command exactly when its [execute]
    went through. When [execute] throws, the same error reaches the caller
    and the state, history included, is unchanged. Hence, in every state of
    a session, every command in the history is one that a call of the
    session executed successfully. *)
Theorem executeCommand_spec (s : State) (command : BankCommand)
    (calls : list Call) (uuids : nat -> string) (dates : nat -> Z) :
  (forall s1, execute command s = (inr tt, s1) ->
     executeCommand command s = (inr tt, set_history (history s ++ [command]) s1)) /\
  (forall e s1, execute command s = (inl e, s1) ->
     executeCommand command s = (inl e, s)) /\
  (history (snd (executeCommand command s)) = history s ++ [command] <->
     exists s1, execute command s = (inr tt, s1)) /\
  (history (snd (executeCommand command s)) = history s <->
     exists e, execute command s = (inl e, s)) /\
  (forall x, x ∈ history (run calls (initial uuids dates)) ->
     exists pre post s1,
       calls = pre ++ ExecuteCommand x :: post /\
       execute x (run pre (initial uuids dates)) = (inr tt, s1)).
Proof.
  pose proof (execute_bookkeeping command s) as (_ & _ & Hh).
  rewrite executeCommand_cases.
  assert (Hneq : history s ++ [command] <> history s).
  { intros E. apply (f_equal length) in E. rewrite length_app in E. simpl in E. lia. }
  assert (Hrun : forall x, x ∈ history (run calls (initial uuids dates)) ->
     exists pre post s1,
       calls = pre ++ ExecuteCommand x :: post /\
       execute x (run pre (initial uuids dates)) = (inr tt, s1)).
  { intros x Hin. apply run_history in Hin as [Hin|?]; [|assumption].
    simpl in Hin. now apply elem_of_nil in Hin. }
  destruct (execute command s) as [[e|[]] s1] eqn:Hex; simpl in *.
  - apply execute_throws in Hex as Hs. subst s1.
    split; [|split; [|split; [|split]]]; [| | | |exact Hrun].
    + intros ? [=].
    + now intros e' s1 [= -> ->].
    + split; [intros E; now symmetry in E | now intros [s1 [=]]].
    + split; eauto.
  - rewrite Hh.
    split; [|split; [|split; [|split]]]; [| | | |exact Hrun].
    + now intros ? [= ->].
    + intros ? ? [=].
    + split; eauto.
    + split; [congruence | now intros [e [=]]].
Qed.

Lemma executeCommand_spec_witness :
  exists pre post s1,
    Demo.opened ++ [ExecuteCommand (DepositCommand Demo.acc2 (of_Z 200))] =
      pre ++ ExecuteCommand (DepositCommand Demo.acc2 (of_Z 200)) :: post /\
    execute (DepositCommand Demo.acc2 (of_Z 200)) (run pre Demo.start) = (inr tt, s1).
Proof.
  apply (proj2 (proj2 (proj2 (proj2
    (executeCommand_spec Demo.start (DepositCommand Demo.acc2 (of_Z 200))
       (Demo.opened ++ [ExecuteCommand (DepositCommand Demo.acc2 (of_Z 200))])
       Demo.uuids Demo.dates))))).
  vm_compute. constructor.
Defined.

(** ** A failed undo *)

(** C6: when the [undo] of the popped command throws, [undoLastCommand]
    throws the same error and leaves the state as it found it: the command
    is back on top of the history and no account has changed. In
    particular the undo of a deposit of a positive amount throws the
    insufficient-funds error when the balance is below that amount. *)
Theorem undo_failure_spec (s : State) (command : BankCommand) :
  last (history s) = Some command ->
  (forall e s1,
     undo command (set_history (removelast (history s)) s) = (inl e, s1) ->
     undoLastCommand s = (inl e, s)) /\
  (forall account amount a,
     command = DepositCommand account amount ->
     heap s !! account = Some a ->
     (amount >? zero)%num = true ->
     (amount >? acc_balance a)%num = true ->
     undoLastCommand s = (inl (InsufficientFunds (acc_balance a) amount), s) /\
     is_InsufficientFunds (InsufficientFunds (acc_balance a) amount) = true).
Proof.
  intros Hl.
  assert (Hfail : forall e s1,
     undo command (set_history (removelast (history s)) s) = (inl e, s1) ->
     undoLastCommand s = (inl e, s)).
  { intros e s1 Hu. rewrite undoLastCommand_cases, Hl, Hu.
    apply undo_throws in Hu. subst s1. f_equal.
    apply last_snoc_inv in Hl.
    destruct s as [h us ds n ac hi]. unfold set_history. simpl in *.
    now rewrite <- Hl. }
  split; [exact Hfail|].
  intros account amount a -> Ha Hpos Hgt. split; [|reflexivity].
  eapply Hfail. simpl. apply withdraw_insufficient; [exact Ha| |exact Hgt].
  now apply gt_not_le.
Qed.

Lemma undo_failure_spec_witness :
  undoLastCommand Demo.overdrawn =
    (inl (InsufficientFunds (of_Z (-300)) (of_Z 200)), Demo.overdrawn).
Proof.
  destruct (heap Demo.overdrawn !! 0%nat) as [a|] eqn:Ha; [|discriminate Ha].
  assert (Hb : acc_balance a = of_Z (-300)) by (now injection Ha as <-).
  rewrite <- Hb.
  refine (proj1 (proj2 (undo_failure_spec Demo.overdrawn
                          (DepositCommand 0%nat (of_Z 200)) _)
                   0%nat (of_Z 200) a _ Ha _ _));
    try reflexivity.
  rewrite Hb. reflexivity.
Defined.

(** ** The bypass *)

(** C9: [forceBalanceChange] accepts every amount, adds it to the balance
    and touches nothing else: neither the log and the other fields of the
    account, nor the other accounts, the registry or the history. *)
Theorem forceBalanceChange_bypass (s : State) (this : ref) (a : BankAccount)
    (amount : number) :
  heap s !! this = Some a ->
  forceBalanceChange this amount s =
    (inr tt, set_heap (<[this := set_balance (acc_balance a + amount)%num a]> (heap s)) s) /\
  acc_balance (set_balance (acc_balance a + amount)%num a) = (acc_balance a + amount)%num /\
  acc_transactions (set_balance (acc_balance a + amount)%num a) = acc_transactions a.
Proof.
  intros Ha. rewrite forceBalanceChange_cases, Ha. repeat split.
Qed.

Lemma forceBalanceChange_bypass_witness :
  exists s',
    forceBalanceChange Demo.acc2 (of_Z (-2000)) Demo.bank = (inr tt, s') /\
    (acc_balance <$> heap s' !! Demo.acc2) = Some (of_Z (-1500)) /\
    (acc_transactions <$> heap s' !! Demo.acc2) = Some [].
Proof.
  eexists. split.
  - refine (proj1 (forceBalanceChange_bypass Demo.bank Demo.acc2
      (mkBankAccount "uuid-i" "John's Checking" CHECKING (of_Z 500)
                     CheckingInterestStrategy []) (of_Z (-2000)) _)).
    reflexivity.
  - split; reflexivity.
Defined.

(** ** A command and its immediate undo *)

Lemma last_push {A} (l : list A) (x : A) : last (l ++ [x]) = Some x.
Proof. apply last_snoc. Qed.

(** C7, as the code has it. A deposit of a positive amount goes through;
    its immediate undo is a withdrawal from the credited balance, accepted
    unless the amount exceeds that balance. A withdrawal that goes through
    is always undone. When the undo is accepted the history is what it was,
    the log has exactly two more entries (the original and the reversal)
    and the balance is [(b + amount) - amount], respectively
    [(b - amount) + amount], in binary64 arithmetic. When the balance and
    the amount are whole numbers below 2^53 that arithmetic is exact: the
    undo is accepted and the balance is the one before the operation. *)
Theorem execute_then_undo (s : State) (account : ref) (a : BankAccount)
    (amount : number) (x y : Z) :
  heap s !! account = Some a ->
  (amount >? zero)%num = true ->
  (exists s1,
     executeCommand (DepositCommand account amount) s = (inr tt, s1) /\
     ((amount >? acc_balance a + amount)%num = false ->
        exists s2 a2 t1 t2,
          undoLastCommand s1 = (inr tt, s2) /\
          history s2 = history s /\
          heap s2 !! account = Some a2 /\
          acc_balance a2 = (acc_balance a + amount - amount)%num /\
          acc_transactions a2 = acc_transactions a ++ [t1; t2] /\
          tx_type t1 = DEPOSIT /\ tx_amount t1 = amount /\
          tx_type t2 = WITHDRAW /\ tx_amount t2 = amount) /\
     ((amount >? acc_balance a + amount)%num = true ->
        undoLastCommand s1 =
          (inl (InsufficientFunds (acc_balance a + amount)%num amount), s1))) /\
  ((amount >? acc_balance a)%num = false ->
     exists s1 s2 a2 t1 t2,
       executeCommand (WithdrawCommand account amount) s = (inr tt, s1) /\
       undoLastCommand s1 = (inr tt, s2) /\
       history s2 = history s /\
       heap s2 !! account = Some a2 /\
       acc_balance a2 = (acc_balance a - amount + amount)%num /\
       acc_transactions a2 = acc_transactions a ++ [t1; t2] /\
       tx_type t1 = WITHDRAW /\ tx_amount t1 = amount /\
       tx_type t2 = DEPOSIT /\ tx_amount t2 = amount) /\
  (acc_balance a = of_Z x -> amount = of_Z y ->
   0 <= x -> 0 < y -> x + y < 2 ^ 53 ->
     (exists s1 s2 a2,
        executeCommand (DepositCommand account amount) s = (inr tt, s1) /\
        undoLastCommand s1 = (inr tt, s2) /\
        heap s2 !! account = Some a2 /\
        acc_balance a2 = acc_balance a /\
        length (acc_transactions a2) = (length (acc_transactions a) + 2)%nat) /\
     (y <= x ->
      exists s1 s2 a2,
        executeCommand (WithdrawCommand account amount) s = (inr tt, s1) /\
        undoLastCommand s1 = (inr tt, s2) /\
        heap s2 !! account = Some a2 /\
        acc_balance a2 = acc_balance a /\
        length (acc_transactions a2) = (length (acc_transactions a) + 2)%nat)).
Proof.
  intros Ha Hpos. apply gt_not_le in Hpos.
  assert (Hdep : exists s1,
     executeCommand (DepositCommand account amount) s = (inr tt, s1) /\
     ((amount >? acc_balance a + amount)%num = false ->
        exists s2 a2 t1 t2,
          undoLastCommand s1 = (inr tt, s2) /\
          history s2 = history s /\
          heap s2 !! account = Some a2 /\
          acc_balance a2 = (acc_balance a + amount - amount)%num /\
          acc_transactions a2 = acc_transactions a ++ [t1; t2] /\
          tx_type t1 = DEPOSIT /\ tx_amount t1 = amount /\
          tx_type t2 = WITHDRAW /\ tx_amount t2 = amount) /\
     ((amount >? acc_balance a + amount)%num = true ->
        undoLastCommand s1 =
          (inl (InsufficientFunds (acc_balance a + amount)%num amount), s1))).
  { rewrite executeCommand_cases. simpl execute.
    rewrite deposit_cases, Hpos, Ha.
    eexists. split; [reflexivity|].
    rewrite undoLastCommand_cases. simpl history.
    rewrite last_push, removelast_last. simpl undo.
    rewrite withdraw_cases, Hpos. simpl heap.
    rewrite list_lookup_insert_eq by (eapply lookup_lt_Some, Ha).
    simpl acc_balance. split; intros Hg; rewrite Hg.
    + eexists _, _, _, _. split; [reflexivity|]. split; [reflexivity|].
      rewrite book_lookup by
        (simpl; apply list_lookup_insert_eq; eapply lookup_lt_Some, Ha).
      rewrite decide_True by reflexivity. split; [reflexivity|].
      split; [reflexivity|].
      split; [unfold booked; simpl; rewrite <- app_assoc; reflexivity|].
      split_and!; reflexivity.
    + reflexivity. }
  assert (Hwd : (amount >? acc_balance a)%num = false ->
     exists s1 s2 a2 t1 t2,
       executeCommand (WithdrawCommand account amount) s = (inr tt, s1) /\
       undoLastCommand s1 = (inr tt, s2) /\
       history s2 = history s /\
       heap s2 !! account = Some a2 /\
       acc_balance a2 = (acc_balance a - amount + amount)%num /\
       acc_transactions a2 = acc_transactions a ++ [t1; t2] /\
       tx_type t1 = WITHDRAW /\ tx_amount t1 = amount /\
       tx_type t2 = DEPOSIT /\ tx_amount t2 = amount).
  { intros Hle. rewrite executeCommand_cases. simpl execute.
    rewrite withdraw_cases, Hpos, Ha, Hle.
    eexists _, _, _, _, _. split; [reflexivity|].
    rewrite undoLastCommand_cases. simpl history.
    rewrite last_push, removelast_last. simpl undo.
    rewrite deposit_cases, Hpos. simpl heap.
    rewrite list_lookup_insert_eq by (eapply lookup_lt_Some, Ha).
    split; [reflexivity|]. split; [reflexivity|].
    rewrite book_lookup by
      (simpl; apply list_lookup_insert_eq; eapply lookup_lt_Some, Ha).
    rewrite decide_True by reflexivity. split; [reflexivity|].
    split; [reflexivity|].
    split; [unfold booked; simpl; rewrite <- app_assoc; reflexivity|].
    split_and!; reflexivity. }
  split; [exact Hdep|]. split; [exact Hwd|].
  intros Hb Hamt Hx Hy Hxy. split.
  - destruct Hdep as (s1 & Hex & Hok & _).
    destruct Hok as (s2 & a2 & t1 & t2 & Hun & _ & Ha2 & Hbal & Hlog & _).
    { rewrite Hb, Hamt, add_integers by lia. apply lt_integers; lia. }
    exists s1, s2, a2. split; [exact Hex|]. split; [exact Hun|].
    split; [exact Ha2|]. split.
    + rewrite Hbal, Hb, Hamt, add_integers, sub_integers by lia. f_equal. lia.
    + rewrite Hlog, length_app. reflexivity.
  - intros Hyx.
    destruct Hwd as (s1 & s2 & a2 & t1 & t2 & Hex & Hun & _ & Ha2 & Hbal & Hlog & _).
    { rewrite Hb, Hamt. apply lt_integers; lia. }
    exists s1, s2, a2. split; [exact Hex|]. split; [exact Hun|].
    split; [exact Ha2|]. split.
    + rewrite Hbal, Hb, Hamt, sub_integers, add_integers by lia. f_equal. lia.
    + rewrite Hlog, length_app. reflexivity.
Qed.

Lemma execute_then_undo_witness :
  (exists s1 s2 a2 t1 t2,
     executeCommand (WithdrawCommand Demo.acc2 (of_Z 200)) Demo.bank = (inr tt, s1) /\
     undoLastCommand s1 = (inr tt, s2) /\
     history s2 = [] /\
     heap s2 !! Demo.acc2 = Some a2 /\
     acc_balance a2 = (of_Z 500 - of_Z 200 + of_Z 200)%num /\
     acc_transactions a2 = [t1; t2] /\
     tx_type t1 = WITHDRAW /\ tx_amount t1 = of_Z 200 /\
     tx_type t2 = DEPOSIT /\ tx_amount t2 = of_Z 200) /\
  (exists s1 s2 a2,
     executeCommand (DepositCommand Demo.acc2 (of_Z 200)) Demo.bank = (inr tt, s1) /\
     undoLastCommand s1 = (inr tt, s2) /\
     heap s2 !! Demo.acc2 = Some a2 /\
     acc_balance a2 = of_Z 500 /\
     length (acc_transactions a2) = 2%nat).
Proof.
  assert (Ha : heap Demo.bank !! Demo.acc2 =
    Some (mkBankAccount "uuid-i" "John's Checking" CHECKING (of_Z 500)
                        CheckingInterestStrategy [])) by reflexivity.
  assert (Hpos : (of_Z 200 >? zero)%num = true) by reflexivity.
  split.
  - refine (proj1 (proj2 (execute_then_undo Demo.bank Demo.acc2 _
                            (of_Z 200) 500 200 Ha Hpos)) _).
    reflexivity.
  - refine (proj1 (proj2 (proj2 (execute_then_undo Demo.bank Demo.acc2 _
                            (of_Z 200) 500 200 Ha Hpos)) _ _ _ _ _));
      try reflexivity; lia.
Defined.

(** C7 as stated fails. In the demo bank, a deposit of 12.04 into the
    checking account (balance 500) and its undo both go through and leave
    499.99999999999994. An account opened with 0.3 ends at
    0.30000000000000004 after a withdrawal of 0.03 and its undo. In both
    cases two entries were logged and the history is empty again. *)
Lemma execute_then_undo_not_restored :
  (acc_balance <$> heap Demo.bank !! Demo.acc2) = Some (of_Z 500) /\
  (acc_balance <$> heap Demo.round_trip !! Demo.acc2) =
    Some (S754_finite false 8796093022207999 (-44)) /\
  (length ∘ acc_transactions <$> heap Demo.round_trip !! Demo.acc2) = Some 2%nat /\
  history Demo.round_trip = [] /\
  S754_finite false 8796093022207999 (-44) <> of_Z 500 /\
  (acc_balance <$> heap Demo.small !! 0%nat) = Some lit_0_3 /\
  (acc_balance <$> heap Demo.small_round_trip !! 0%nat) =
    Some (S754_finite false 5404319552844596 (-54)) /\
  (length ∘ acc_transactions <$> heap Demo.small_round_trip !! 0%nat) = Some 2%nat /\
  history Demo.small_round_trip = [] /\
  S754_finite false 5404319552844596 (-54) <> lit_0_3.
Proof.
  repeat split; try (vm_compute; reflexivity); vm_compute; discriminate.
Qed.

(** ** The ledger identity *)

(** C2, as the code has it: in every state of a session, the balance of
    every account is its opening balance with the amounts of its log applied
    in order, added for deposit, interest and transfer-in, subtracted for
    withdraw and transfer-out. A new account has its opening balance and an
    empty log. *)
Theorem ledger_identity (calls : list Call) (uuids : nat -> string)
    (dates : nat -> Z) (r : ref) (a : BankAccount)
    (s0 : State) (name : string) (type : AccountType) (initialBalance : number) :
  heap (run calls (initial uuids dates)) !! r = Some a ->
  (exists b0,
     opening calls !! r = Some b0 /\
     acc_balance a = signed_sum_from b0 (acc_transactions a)) /\
  (exists r' s' a',
     createAccount name type initialBalance s0 = (inr r', s') /\
     heap s' !! r' = Some a' /\
     acc_balance a' = initialBalance /\ acc_transactions a' = []).
Proof.
  intros Ha. split.
  - destruct (session_invariant calls uuids dates) as (Hs & _).
    destruct (Forall2_lookup_r _ _ _ _ _ Hs Ha) as (b0 & Hb0 & Hb & _).
    eauto.
  - rewrite createAccount_eq. eexists _, _, _. split; [reflexivity|]. simpl.
    rewrite lookup_app_r, Nat.sub_diag by lia. repeat split.
Qed.

Lemma ledger_identity_witness :
  exists b0,
    opening Demo.opened !! Demo.acc1 = Some b0 /\
    of_Z 1000 = signed_sum_from b0 [].
Proof.
  refine (proj1 (ledger_identity Demo.opened Demo.uuids Demo.dates Demo.acc1
    (mkBankAccount "uuid-" "John's Savings" SAVINGS (of_Z 1000)
                   SavingsInterestStrategy [])
    Demo.start "" CHECKING zero _)).
  reflexivity.
Defined.

(** C2 as stated fails: the first demo account is opened with a balance of
    1000 and an empty log, whose signed sum is 0. *)
Lemma ledger_identity_fails_at_creation :
  exists a,
    heap Demo.bank !! Demo.acc1 = Some a /\
    acc_balance a = of_Z 1000 /\
    acc_transactions a = [] /\
    signed_sum (acc_transactions a) = zero /\
    acc_balance a <> signed_sum (acc_transactions a).
Proof.
  eexists. split; [reflexivity|]. repeat split. discriminate.
Qed.

(** ** The kinds a transfer records *)

(** C10: a transfer that goes through logs one [WITHDRAW] entry on the
    source and one [DEPOSIT] entry on the destination, which differ from
    each other by kind and by a description that names the counterparty;
    and in every state of a session no log holds an entry of kind
    [TRANSFER_IN] or [TRANSFER_OUT]. *)
Theorem transfer_kinds (s : State) (X Y : ref) (amount : number)
    (calls : list Call) (uuids : nat -> string) (dates : nat -> Z) :
  (forall s', execute (TransferCommand X Y amount) s = (inr tt, s') ->
     exists ax ay ax' ay' tw td,
       heap s !! X = Some ax /\ heap s !! Y = Some ay /\
       heap s' !! X = Some ax' /\ heap s' !! Y = Some ay' /\
       tx_type tw = WITHDRAW /\ tx_amount tw = amount /\
       tx_description tw = "Transfer to " +:+ acc_name ay /\
       tx_type td = DEPOSIT /\ tx_amount td = amount /\
       tx_description td = "Transfer from " +:+ acc_name ax /\
       if decide (X = Y)
       then acc_transactions ax' = acc_transactions ax ++ [tw; td]
       else acc_transactions ax' = acc_transactions ax ++ [tw] /\
            acc_transactions ay' = acc_transactions ay ++ [td]) /\
  (forall r a t,
     heap (run calls (initial uuids dates)) !! r = Some a ->
     t ∈ acc_transactions a ->
     recorded_kind (tx_type t) = true /\
     tx_type t <> TRANSFER_IN /\ tx_type t <> TRANSFER_OUT).
Proof.
  split.
  - intros s'. rewrite execute_transfer_legs, two_legs_cases.
    destruct (heap s !! Y) as [ay|] eqn:Hy; [|discriminate].
    destruct (amount <=? zero)%num; [discriminate|].
    destruct (heap s !! X) as [ax|] eqn:Hx; [|discriminate].
    destruct (amount >? acc_balance ax)%num; [discriminate|].
    cbv zeta. intros [= <-].
    assert (Hx1 : forall r,
      heap (book s X ax (acc_balance ax - amount)%num WITHDRAW amount
                 ("Transfer to " +:+ acc_name ay)) !! r =
      if decide (r = X)
      then Some (booked s ax (acc_balance ax - amount)%num WITHDRAW amount
                        ("Transfer to " +:+ acc_name ay))
      else heap s !! r) by (intros r; now apply book_lookup).
    destruct (decide (X = Y)) as [<-|Hne].
    + rewrite decide_True by reflexivity.
      eexists ax, ay, _, _, _, _.
      split; [reflexivity|]. split; [reflexivity|].
      rewrite !book_lookup, !decide_True by
        (try reflexivity; rewrite Hx1; now rewrite decide_True).
      split; [reflexivity|]. split; [reflexivity|].
      unfold booked. simpl. rewrite <- app_assoc. simpl.
      assert (ay = ax) by congruence. subst ay. repeat split; reflexivity.
    + rewrite (decide_False (P := Y = X)) by congruence.
      eexists ax, ay, _, _, _, _.
      split; [reflexivity|]. split; [reflexivity|].
      assert (Hy1 : heap (book s X ax (acc_balance ax - amount)%num WITHDRAW amount
                 ("Transfer to " +:+ acc_name ay)) !! Y = Some ay)
        by (rewrite Hx1, decide_False by congruence; exact Hy).
      rewrite !(book_lookup _ Y ay) by exact Hy1.
      rewrite decide_False by congruence. rewrite decide_True by reflexivity.
      rewrite Hx1, decide_True by reflexivity.
      split; [reflexivity|]. split; [reflexivity|]. repeat split; reflexivity.
  - intros r a t Ha Hin.
    destruct (session_invariant calls uuids dates) as (Hs & _).
    destruct (Forall2_lookup_r _ _ _ _ _ Hs Ha) as (b0 & _ & _ & Hk & _).
    rewrite Forall_forall in Hk. specialize (Hk t Hin).
    split; [exact Hk|]. split; intros E; rewrite E in Hk; discriminate.
Qed.

Lemma transfer_kinds_witness :
  exists ax ay ax' ay' tw td,
    heap Demo.bank !! Demo.acc2 = Some ax /\ heap Demo.bank !! Demo.acc1 = Some ay /\
    heap (snd (execute (TransferCommand Demo.acc2 Demo.acc1 (of_Z 300)) Demo.bank))
      !! Demo.acc2 = Some ax' /\
    heap (snd (execute (TransferCommand Demo.acc2 Demo.acc1 (of_Z 300)) Demo.bank))
      !! Demo.acc1 = Some ay' /\
    tx_type tw = WITHDRAW /\ tx_amount tw = of_Z 300 /\
    tx_description tw = "Transfer to " +:+ acc_name ay /\
    tx_type td = DEPOSIT /\ tx_amount td = of_Z 300 /\
    tx_description td = "Transfer from " +:+ acc_name ax /\
    (acc_transactions ax' = acc_transactions ax ++ [tw] /\
     acc_transactions ay' = acc_transactions ay ++ [td]).
Proof.
  refine (proj1 (transfer_kinds Demo.bank Demo.acc2 Demo.acc1 (of_Z 300)
                   [] Demo.uuids Demo.dates) _ _).
  vm_compute. reflexivity.
Defined.

(** ** Interest accrual *)

Lemma applyInterest_accrues this s a :
  heap s !! this = Some a ->
  exists i s' a',
    applyInterest this s = (inr i, s') /\
    history s' = history s /\ accounts s' = accounts s /\
    length (heap s') = length (heap s) /\
    heap s' !! this = Some a' /\ accrued a a' /\
    forall r, r <> this -> heap s' !! r = heap s !! r.
Proof.
  intros Ha. rewrite applyInterest_cases, Ha. cbv zeta. unfold accrued.
  destruct (_ >? zero)%num.
  - eexists _, _, _. split; [reflexivity|]. split; [reflexivity|].
    split; [reflexivity|]. split; [apply book_length|].
    rewrite (book_lookup _ _ _ _ _ _ _ this Ha), decide_True by reflexivity.
    split; [reflexivity|]. split.
    + eexists. split_and!; reflexivity.
    + intros r Hr. now rewrite (book_lookup _ _ _ _ _ _ _ r Ha), decide_False.
  - eexists _, _, _. repeat split; eauto.
Qed.

Lemma forEach_applyInterest (l : list ref) (s : State) :
  NoDup l ->
  Forall (fun r => (r < length (heap s))%nat) l ->
  exists s',
    forEach (fun acc => applyInterest acc;; ret tt) l s = (inr tt, s') /\
    history s' = history s /\ accounts s' = accounts s /\
    length (heap s') = length (heap s) /\
    forall (r : ref) a, heap s !! r = Some a ->
      (r ∉ l -> heap s' !! r = Some a) /\
      (r ∈ l -> exists a', heap s' !! r = Some a' /\ accrued a a').
Proof.
  revert s. induction l as [|x l IH]; intros s Hnd Hall.
  - exists s. repeat split; auto. intros Hin. now apply elem_of_nil in Hin.
  - apply NoDup_cons in Hnd as [Hx Hnd]. apply Forall_cons in Hall as [Hlt Hall].
    destruct (lookup_lt_is_Some_2 _ _ Hlt) as [ax Hax].
    destruct (applyInterest_accrues x s ax Hax)
      as (i & s1 & ax' & Hrun & Hh1 & Hac1 & Hlen1 & Hx1 & Hacc & Hframe).
    destruct (IH s1 Hnd) as (s' & Hrun' & Hh' & Hac' & Hlen' & Hspec).
    { rewrite Hlen1. exact Hall. }
    exists s'. simpl. unfold bind at 1. unfold bind at 1. rewrite Hrun.
    unfold ret at 1. rewrite Hrun'.
    split; [reflexivity|]. split; [congruence|]. split; [congruence|].
    split; [congruence|]. intros r a Ha. unfold ref in *.
    destruct (decide (r = x)) as [->|Hne].
    + assert (a = ax) by congruence. subst a. split.
      * intros Hnin. exfalso. apply Hnin. now left.
      * intros _. exists ax'. split; [|exact Hacc].
        now apply (Hspec x ax' Hx1).
    + pose proof (Hframe r Hne) as Hf. rewrite Ha in Hf.
      destruct (Hspec r a Hf) as [Hout Hin].
      split.
      * intros Hnin. apply Hout. intros Hr. apply Hnin. now right.
      * intros Hr. apply Hin. apply elem_of_cons in Hr as [?|?]; [contradiction|assumption].
Qed.

(** C8: one [applyInterestToAll] in any state of a session. Every
    registered savings account with balance [b] whose interest [b * 0.03]
    is positive ends at [b + b * 0.03] with exactly one more entry, of kind
    [INTEREST] and of that amount -- from 1000, the entry is of 30 and the
    balance 1030 --; every registered checking account is as before; the
    call returns normally and the history is as before, so that
    [undoLastCommand] has nothing of the accrual to revert. *)
Theorem accrual_spec (calls : list Call) (uuids : nat -> string)
    (dates : nat -> Z) (s : State) :
  s = run calls (initial uuids dates) ->
  exists s',
    applyInterestToAll s = (inr tt, s') /\
    history s' = history s /\
    (history s = [] -> undoLastCommand s' = (inr tt, s')) /\
    forall r a,
      r ∈ Map_values (accounts s) -> heap s !! r = Some a ->
      exists a',
        heap s' !! r = Some a' /\
        (acc_type a = SAVINGS ->
           ((acc_balance a * rate >? zero)%num = true ->
              exists t,
                acc_balance a' = (acc_balance a + acc_balance a * rate)%num /\
                acc_transactions a' = acc_transactions a ++ [t] /\
                tx_type t = INTEREST /\
                tx_amount t = (acc_balance a * rate)%num) /\
           ((acc_balance a * rate >? zero)%num = false -> a' = a) /\
           (acc_balance a = of_Z 1000 ->
              exists t,
                acc_balance a' = of_Z 1030 /\
                acc_transactions a' = acc_transactions a ++ [t] /\
                tx_type t = INTEREST /\ tx_amount t = of_Z 30)) /\
        (acc_type a = CHECKING ->
           a' = a /\
           acc_balance a' = acc_balance a /\
           acc_transactions a' = acc_transactions a).
Proof.
  intros ->. set (s := run calls (initial uuids dates)).
  destruct (session_invariant calls uuids dates) as (Hs & Hnd & Hall).
  fold s in Hs, Hnd, Hall.
  destruct (forEach_applyInterest (Map_values (accounts s)) s Hnd Hall)
    as (s' & Hrun & Hh & _ & _ & Hspec).
  exists s'. split; [exact Hrun|]. split; [exact Hh|]. split.
  { intros He. rewrite undoLastCommand_cases, Hh, He. reflexivity. }
  intros r a Hr Ha. destruct (Hspec r a Ha) as [_ Hin].
  destruct (Hin Hr) as (a' & Ha' & Hacc). exists a'. split; [exact Ha'|].
  destruct (Forall2_lookup_r _ _ _ _ _ Hs Ha) as (b0 & _ & _ & _ & Hpol).
  unfold accrued in Hacc. rewrite Hpol in Hacc. split.
  - intros Ht. rewrite Ht in Hacc. simpl in Hacc.
    assert (Hpos : (acc_balance a * rate >? zero)%num = true ->
              exists t,
                acc_balance a' = (acc_balance a + acc_balance a * rate)%num /\
                acc_transactions a' = acc_transactions a ++ [t] /\
                tx_type t = INTEREST /\
                tx_amount t = (acc_balance a * rate)%num).
    { intros Hi. rewrite Hi in Hacc.
      destruct Hacc as (t & Hbal & Hlog & Hk & Hamt & _).
      exists t. auto. }
    split; [exact Hpos|]. split.
    + intros Hi. now rewrite Hi in Hacc.
    + intros Hb. destruct interest_on_1000 as [Hi Hsum].
      destruct Hpos as (t & Hbal & Hlog & Hk & Hamt).
      { rewrite Hb, Hi. reflexivity. }
      exists t. rewrite Hbal, Hamt, Hb, Hi, Hsum. auto.
  - intros Ht. rewrite Ht in Hacc. simpl in Hacc. subst a'. auto.
Qed.

Lemma accrual_spec_witness :
  exists s' a1 a2 t,
    applyInterestToAll Demo.bank = (inr tt, s') /\
    history s' = history Demo.bank /\
    heap s' !! Demo.acc1 = Some a1 /\
    acc_balance a1 = of_Z 1030 /\
    acc_transactions a1 = [t] /\
    tx_type t = INTEREST /\ tx_amount t = of_Z 30 /\
    heap s' !! Demo.acc2 = Some a2 /\
    acc_balance a2 = of_Z 500 /\
    acc_transactions a2 = [].
Proof.
  destruct (accrual_spec Demo.opened Demo.uuids Demo.dates Demo.bank eq_refl)
    as (s' & Hrun & Hh & _ & Hspec).
  destruct (Hspec Demo.acc1
              (mkBankAccount "uuid-" "John's Savings" SAVINGS (of_Z 1000)
                             SavingsInterestStrategy []))
    as (a1 & Ha1 & Hsav & _); [vm_compute; constructor|reflexivity|].
  destruct (Hspec Demo.acc2
              (mkBankAccount "uuid-i" "John's Checking" CHECKING (of_Z 500)
                             CheckingInterestStrategy []))
    as (a2 & Ha2 & _ & Hchk); [vm_compute; repeat constructor|reflexivity|].
  destruct (Hsav eq_refl) as (_ & _ & H1000).
  destruct (H1000 eq_refl) as (t & Hbal & Hlog & Hk & Hamt).
  destruct (Hchk eq_refl) as (_ & Hbal2 & Hlog2).
  exists s', a1, a2, t. split_and!; assumption.
Defined.

(** The example of the specification: A (checking, 500) and B (savings,
    1000); deposit 200 into A, transfer 300 from A to B, undo, undo. *)
Example specification_scenario :
  let balances s := acc_balance <$> heap s in
  let s0 := run [CreateAccount "A" CHECKING (of_Z 500);
                 CreateAccount "B" SAVINGS (of_Z 1000)] Demo.start in
  let s1 := run [ExecuteCommand (DepositCommand 0%nat (of_Z 200))] s0 in
  let s2 := run [ExecuteCommand (TransferCommand 0%nat 1%nat (of_Z 300))] s1 in
  let s3 := run [UndoLastCommand] s2 in
  let s4 := run [UndoLastCommand] s3 in
  balances s1 = [of_Z 700; of_Z 1000] /\
  balances s2 = [of_Z 400; of_Z 1300] /\
  balances s3 = [of_Z 700; of_Z 1000] /\
  balances s4 = [of_Z 500; of_Z 1000] /\
  history s4 = [].
Proof. vm_compute. repeat split. Qed.

(** * More of the code *)

(** ** Recordings *)

Lemma records_trans s1 s2 s3 : records s1 s2 -> records s2 s3 -> records s1 s3.
Proof.
  induction 1 as [|s this a type amount description s' Ha Hk Hamt _ IH]; [trivial|].
  intros H3. eapply records_step; eauto.
Qed.

Lemma book_records s this a b type amount description :
  heap s !! this = Some a ->
  recorded_kind type = true ->
  (amount <=? zero)%num = false ->
  b = post (acc_balance a) (entry s a type amount description) ->
  records s (book s this a b type amount description).
Proof.
  intros Ha Hk Hamt ->. eapply records_step; eauto. constructor.
Qed.

Lemma deposit_records this amount description s :
  records s (snd (deposit this amount description s)).
Proof.
  rewrite deposit_cases. destruct (amount <=? zero)%num eqn:Hamt; [constructor|].
  destruct (heap s !! this) as [a|] eqn:Ha; [|constructor].
  now apply book_records.
Qed.

Lemma withdraw_records this amount description s :
  records s (snd (withdraw this amount description s)).
Proof.
  rewrite withdraw_cases. destruct (amount <=? zero)%num eqn:Hamt; [constructor|].
  destruct (heap s !! this) as [a|] eqn:Ha; [|constructor].
  destruct (amount >? acc_balance a)%num; [constructor|].
  now apply book_records.
Qed.

Lemma applyInterest_records this s :
  records s (snd (applyInterest this s)).
Proof.
  rewrite applyInterest_cases.
  destruct (heap s !! this) as [a|] eqn:Ha; [|constructor].
  cbv zeta. destruct (_ >? zero)%num eqn:Hi; [|constructor].
  apply book_records; auto. now apply gt_not_le.
Qed.

Lemma bind_records {A B} (m : M A) (k : A -> M B) s :
  records s (snd (m s)) ->
  (forall x s1, records s1 (snd (k x s1))) ->
  records s (snd (bind m k s)).
Proof.
  intros Hm Hk. unfold bind. destruct (m s) as [[e|x] s1]; simpl in *; [exact Hm|].
  eapply records_trans; [exact Hm | apply Hk].
Qed.

Lemma load_records r s : records s (snd (load r s)).
Proof. unfold load. destruct (heap s !! r); constructor. Qed.

Lemma two_legs_records w d amount dw dd s :
  records s (snd (two_legs w d amount dw dd s)).
Proof.
  unfold two_legs.
  apply bind_records; [apply load_records|]. intros ad s1.
  apply bind_records; [apply withdraw_records|]. intros _ s2.
  apply bind_records; [apply load_records|]. intros aw s3.
  apply deposit_records.
Qed.

Lemma execute_records c s : records s (snd (execute c s)).
Proof.
  destruct c as [r x|r x|f t x].
  - apply deposit_records.
  - apply withdraw_records.
  - rewrite execute_transfer_legs. apply two_legs_records.
Qed.

Lemma undo_records c s : records s (snd (undo c s)).
Proof.
  destruct c as [r x|r x|f t x].
  - apply withdraw_records.
  - apply deposit_records.
  - rewrite undo_transfer_legs. apply two_legs_records.
Qed.

Lemma forEach_records {A} (f : A -> M unit) (l : list A) s :
  (forall x s1, records s1 (snd (f x s1))) ->
  records s (snd (forEach f l s)).
Proof.
  intros Hf. revert s. induction l as [|x l IH]; intros s; simpl.
  - constructor.
  - apply bind_records; [apply Hf|]. intros _ s1. apply IH.
Qed.

Lemma applyInterestToAll_records s : records s (snd (applyInterestToAll s)).
Proof.
  unfold applyInterestToAll, bind at 1, gets.
  apply forEach_records. intros r s1.
  apply bind_records; [apply applyInterest_records|].
  intros _ s2. constructor.
Qed.

(** Recordings do not read the history. *)
Lemma records_set_history h s s' :
  records s s' -> records (set_history h s) (set_history h s').
Proof.
  induction 1 as [|s this a type amount description s' Ha Hk Hamt _ IH]; [constructor|].
  apply (records_step (set_history h s) this a type amount description);
    [exact Ha|exact Hk|exact Hamt|exact IH].
Qed.

Lemma records_history s s' : records s s' -> history s' = history s.
Proof. induction 1; [reflexivity|]. etransitivity; eauto. Qed.

(** Every call of a session but [createAccount] is recordings followed by
    an update of the history. *)
Lemma perform_records c s :
  (exists name type b0, c = CreateAccount name type b0) \/
  exists s1, records s s1 /\ snd (perform c s) = set_history (history (snd (perform c s))) s1.
Proof.
  destruct c as [name type b0|command| |]; [left; eauto| | |]; right; simpl.
  - rewrite executeCommand_cases.
    pose proof (execute_records command s) as Hr.
    destruct (execute command s) as [[e|[]] s1]; simpl in *;
      exists s1; (split; [exact Hr|now destruct s1]).
  - rewrite undoLastCommand_cases.
    destruct (last (history s)) as [command|]; [|exists s; split; [constructor|now destruct s]].
    pose proof (undo_records command (set_history (removelast (history s)) s)) as Hr.
    apply (records_set_history (history s)) in Hr.
    destruct (undo command _) as [[e|[]] s1]; simpl in *.
    + exists (set_history (history s) s1). split; [|reflexivity].
      destruct s; exact Hr.
    + exists (set_history (history s) s1). split; [|now destruct s1].
      destruct s; exact Hr.
  - pose proof (applyInterestToAll_records s) as Hr.
    exists (snd (applyInterestToAll s)). split; [exact Hr|].
    now destruct (snd (applyInterestToAll s)).
Qed.

(** An induction principle for the states of a session. *)
Lemma records_ind_inv (I : State -> Prop) :
  (forall s this a type amount description,
     I s -> heap s !! this = Some a -> recorded_kind type = true ->
     (amount <=? zero)%num = false ->
     I (book s this a (post (acc_balance a) (entry s a type amount description))
             type amount description)) ->
  forall s s', records s s' -> I s -> I s'.
Proof.
  intros Hstep s s'. induction 1 as [|s this a type amount description s' Ha Hk Hamt _ IH];
    [trivial|]. intros Hs. apply IH. now apply Hstep.
Qed.

Lemma session_induction (I : State -> Prop) (uuids : nat -> string) (dates : nat -> Z) :
  I (initial uuids dates) ->
  (forall s name type b0, I s -> I (snd (createAccount name type b0 s))) ->
  (forall s this a type amount description,
     I s -> heap s !! this = Some a -> recorded_kind type = true ->
     (amount <=? zero)%num = false ->
     I (book s this a (post (acc_balance a) (entry s a type amount description))
             type amount description)) ->
  (forall s h, I s -> I (set_history h s)) ->
  forall calls, I (run calls (initial uuids dates)).
Proof.
  intros Hinit Hcreate Hstep Hhist calls.
  induction calls as [|c calls IH] using rev_ind; [exact Hinit|].
  rewrite run_app. simpl. set (s := run calls (initial uuids dates)) in *.
  destruct (perform_records c s) as [(name & type & b0 & ->)|(s1 & Hr & ->)].
  - simpl. unfold bind. specialize (Hcreate s name type b0 IH).
    destruct (createAccount name type b0 s) as [[e|x] s1]; exact Hcreate.
  - apply Hhist. eapply records_ind_inv; eauto.
Qed.

(** ** Logs only grow *)

Lemma continues_refl a : continues a a.
Proof. unfold continues. split_and!; reflexivity. Qed.

Lemma continues_trans a1 a2 a3 : continues a1 a2 -> continues a2 a3 -> continues a1 a3.
Proof.
  intros (I1 & N1 & T1 & S1 & P1) (I2 & N2 & T2 & S2 & P2).
  unfold continues. split_and!; try congruence. etransitivity; eauto.
Qed.

Lemma records_continues s s' (r : ref) a :
  records s s' -> heap s !! r = Some a ->
  exists a', heap s' !! r = Some a' /\ continues a a'.
Proof.
  intros Hr. revert a.
  induction Hr as [|s this a0 type amount description s' Ha0 Hk Hamt _ IH]; intros a Ha.
  - exists a. split; [exact Ha|apply continues_refl].
  - unfold ref in *. destruct (decide (r = this)) as [->|Hne].
    + assert (a0 = a) by congruence. subst a0.
      destruct (IH (booked s a (post (acc_balance a) (entry s a type amount description))
                           type amount description)) as (a' & Ha' & Hc).
      { rewrite (book_lookup _ _ _ _ _ _ _ this Ha), decide_True; reflexivity. }
      exists a'. split; [exact Ha'|]. eapply continues_trans; [|exact Hc].
      unfold continues. split_and!; try reflexivity. simpl. now apply prefix_app_r.
    + destruct (IH a) as (a' & Ha' & Hc); [|eauto].
      rewrite (book_lookup _ _ _ _ _ _ _ r Ha0), decide_False; assumption.
Qed.

Lemma perform_continues c s (r : ref) a :
  heap s !! r = Some a ->
  exists a', heap (snd (perform c s)) !! r = Some a' /\ continues a a'.
Proof.
  intros Ha. destruct (perform_records c s) as [(name & type & b0 & ->)|(s1 & Hr & ->)].
  - simpl. unfold bind. rewrite createAccount_eq. simpl.
    exists a. split; [|apply continues_refl].
    rewrite lookup_app_l; [exact Ha|]. apply (lookup_lt_Some _ _ _ Ha).
  - exact (records_continues s s1 r a Hr Ha).
Qed.

(** X1. Whatever calls follow -- undo included --, an account of the heap
    stays where it is with the same identifier, name, category and
    strategy, and its log at the time is a prefix of its later log: no
    entry is ever removed or rewritten. *)
Theorem logs_only_grow (calls : list Call) (s : State) (r : ref) (a : BankAccount) :
  heap s !! r = Some a ->
  exists a', heap (run calls s) !! r = Some a' /\ continues a a'.
Proof.
  revert s a. induction calls as [|c calls IH]; intros s a Ha.
  - exists a. split; [exact Ha|apply continues_refl].
  - destruct (perform_continues c s r a Ha) as (a1 & Ha1 & Hc1).
    destruct (IH _ a1 Ha1) as (a' & Ha' & Hc').
    exists a'. split; [exact Ha'|]. eapply continues_trans; eauto.
Qed.

Lemma logs_only_grow_witness :
  exists a',
    heap (run [ExecuteCommand (DepositCommand Demo.acc2 (of_Z 200)); UndoLastCommand]
              Demo.bank) !! Demo.acc2 = Some a' /\
    continues (mkBankAccount "uuid-i" "John's Checking" CHECKING (of_Z 500)
                             CheckingInterestStrategy []) a'.
Proof. apply logs_only_grow. reflexivity. Defined.

(** ** What a log holds *)

(** X2. In every state of a session, every entry of every log carries the
    identifier of the account that holds it, is of kind [DEPOSIT],
    [WITHDRAW] or [INTEREST], and has an amount that is not [<= 0]. *)
Theorem logs_well_formed (calls : list Call) (uuids : nat -> string)
    (dates : nat -> Z) (r : ref) (a : BankAccount) :
  heap (run calls (initial uuids dates)) !! r = Some a ->
  well_logged a.
Proof.
  revert r a.
  apply (session_induction
           (fun s => forall (r : ref) a, heap s !! r = Some a -> well_logged a)).
  - intros r a Ha. simpl in Ha. now rewrite lookup_nil in Ha.
  - intros s name type b0 IH r a. rewrite createAccount_eq. simpl.
    intros Ha. apply lookup_app_Some in Ha as [Ha|[_ Ha]]; [eauto|].
    apply list_lookup_singleton_Some in Ha as [_ <-]. constructor.
  - intros s this a0 type amount description IH Ha0 Hk Hamt r a.
    rewrite (book_lookup _ _ _ _ _ _ _ r Ha0). unfold ref in *. case_decide.
    + intros [= <-]. unfold well_logged. simpl.
      apply Forall_app. split; [exact (IH _ _ Ha0)|].
      constructor; [|constructor]. repeat split; assumption.
    + apply IH.
  - intros s h IH. exact IH.
Qed.

Lemma logs_well_formed_witness :
  exists a,
    heap Demo.round_trip !! Demo.acc2 = Some a /\
    length (acc_transactions a) = 2%nat /\
    well_logged a.
Proof.
  eexists. split; [vm_compute; reflexivity|]. split; [reflexivity|].
  apply (logs_well_formed
           (Demo.opened ++
            [ExecuteCommand (DepositCommand 1%nat lit_12_04); UndoLastCommand])
           Demo.uuids Demo.dates Demo.acc2).
  vm_compute. reflexivity.
Defined.

(** ** Deposit *)

(** X3. [deposit] throws the invalid-amount error exactly when
    [amount <= 0], changing nothing; otherwise it adds [amount] to the
    balance and appends one [DEPOSIT] entry with that amount, the given
    description and the account's identifier, and leaves every other
    account, the registry and the history as they were. *)
Theorem deposit_spec (s : State) (this : ref) (a : BankAccount)
    (amount : number) (description : string) :
  heap s !! this = Some a ->
  ((amount <=? zero)%num = true ->
     deposit this amount description s = (inl DepositNotPositive, s)) /\
  ((amount <=? zero)%num = false ->
     exists s' a' t,
       deposit this amount description s = (inr tt, s') /\
       heap s' !! this = Some a' /\
       acc_balance a' = (acc_balance a + amount)%num /\
       acc_transactions a' = acc_transactions a ++ [t] /\
       acc_id a' = acc_id a /\ acc_name a' = acc_name a /\
       acc_type a' = acc_type a /\
       acc_interestStrategy a' = acc_interestStrategy a /\
       tx_type t = DEPOSIT /\ tx_amount t = amount /\
       tx_description t = description /\ tx_accountId t = acc_id a /\
       history s' = history s /\ accounts s' = accounts s /\
       forall r : ref, r <> this -> heap s' !! r = heap s !! r).
Proof.
  intros Ha. rewrite deposit_cases, Ha. split; intros Hamt; rewrite Hamt; [reflexivity|].
  eexists _, _, _. split; [reflexivity|].
  rewrite (book_lookup _ _ _ _ _ _ _ this Ha), decide_True by reflexivity.
  split; [reflexivity|]. split_and!; try reflexivity.
  intros r Hr. now rewrite (book_lookup _ _ _ _ _ _ _ r Ha), decide_False.
Qed.

Lemma deposit_spec_witness :
  deposit Demo.acc2 (of_Z (-5)) "Deposit" Demo.bank =
    (inl DepositNotPositive, Demo.bank) /\
  (exists s' a' t,
     deposit Demo.acc2 (of_Z 200) "Deposit" Demo.bank = (inr tt, s') /\
     heap s' !! Demo.acc2 = Some a' /\
     acc_balance a' = of_Z 700 /\
     acc_transactions a' = [t] /\
     tx_type t = DEPOSIT /\ tx_amount t = of_Z 200).
Proof.
  assert (Ha : heap Demo.bank !! Demo.acc2 =
    Some (mkBankAccount "uuid-i" "John's Checking" CHECKING (of_Z 500)
                        CheckingInterestStrategy [])) by reflexivity.
  split.
  - refine (proj1 (deposit_spec Demo.bank Demo.acc2 _ (of_Z (-5)) "Deposit" Ha) _).
    reflexivity.
  - destruct (proj2 (deposit_spec Demo.bank Demo.acc2 _ (of_Z 200) "Deposit" Ha)
                eq_refl)
      as (s' & a' & t & Hrun & Hl & Hb & Hlog & _ & _ & _ & _ & Hty & Hamt & _).
    exists s', a', t. split_and!; assumption.
Defined.

(** ** Interest on one account *)

(** The product of a number that is not positive by the rate is not
    positive. *)
Lemma interest_not_positive (b : number) :
  (b >? zero)%num = false -> (b * rate >? zero)%num = false.
Proof.
  unfold Num.gt, Num.mul, rate, lit_0_03.
  destruct b as [sb|sb| |sb mb eb]; simpl; try reflexivity;
    try (destruct sb; simpl; intros; (reflexivity || discriminate)).
  destruct sb; [intros _|discriminate]. simpl xorb.
  pose proof (binary_round_aux_sign true (Z.pos (mb * 8646911284551352))
                (eb + -58) loc_Exact) as Hsign.
  destruct (binary_round_aux prec emax true _ _ loc_Exact) as [s|s| |s m e];
    try reflexivity; subst s; reflexivity.
Qed.



(** ** The undo of a transfer *)

(** X5. The undo of a transfer between two distinct accounts takes the
    amount back out of the destination and returns it to the source: when
    [0 < amount <= balance of the destination] it goes through, with one
    [WITHDRAW] entry on the destination and one [DEPOSIT] entry on the
    source, both described as reversals; when the amount exceeds the
    balance of the destination it throws and nothing has changed. *)
Theorem undo_transfer_spec (s : State) (X Y : ref) (ax ay : BankAccount)
    (amount : number) :
  X <> Y ->
  heap s !! X = Some ax ->
  heap s !! Y = Some ay ->
  ((amount <=? acc_balance ay)%num = true -> (amount >? zero)%num = true ->
     exists s' ax' ay' tx ty,
       undo (TransferCommand X Y amount) s = (inr tt, s') /\
       heap s' !! X = Some ax' /\ heap s' !! Y = Some ay' /\
       acc_balance ax' = (acc_balance ax + amount)%num /\
       acc_balance ay' = (acc_balance ay - amount)%num /\
       acc_transactions ax' = acc_transactions ax ++ [tx] /\
       acc_transactions ay' = acc_transactions ay ++ [ty] /\
       tx_type tx = DEPOSIT /\ tx_amount tx = amount /\
       tx_description tx = "UNDO: Revert Transfer to " +:+ acc_name ay /\
       tx_type ty = WITHDRAW /\ tx_amount ty = amount /\
       tx_description ty = "UNDO: Revert Transfer from " +:+ acc_name ax) /\
  ((amount >? acc_balance ay)%num = true -> (amount >? zero)%num = true ->
     undo (TransferCommand X Y amount) s =
       (inl (InsufficientFunds (acc_balance ay) amount), s)).
Proof.
  intros Hne Hx Hy. rewrite undo_transfer_legs, two_legs_cases, Hx, Hy. split.
  - intros Hle Hpos. apply gt_not_le in Hpos. apply le_not_gt in Hle.
    rewrite Hpos, Hle. cbv zeta. rewrite decide_False by congruence.
    eexists _, _, _, _, _. split; [reflexivity|].
    assert (Hx1 : heap (book s Y ay (acc_balance ay - amount)%num WITHDRAW amount
                          ("UNDO: Revert Transfer from " +:+ acc_name ax)) !! X = Some ax)
      by (rewrite (book_lookup _ _ _ _ _ _ _ X Hy), decide_False by congruence; exact Hx).
    rewrite !(book_lookup _ X ax) by exact Hx1.
    rewrite decide_True by reflexivity. rewrite decide_False by congruence.
    rewrite (book_lookup _ _ _ _ _ _ _ Y Hy), decide_True by reflexivity.
    split; [reflexivity|]. split; [reflexivity|]. split_and!; reflexivity.
  - intros Hgt Hpos. apply gt_not_le in Hpos. now rewrite Hpos, Hgt.
Qed.

Lemma undo_transfer_spec_witness :
  undo (TransferCommand Demo.acc1 Demo.acc2 (of_Z 600)) Demo.bank =
    (inl (InsufficientFunds (of_Z 500) (of_Z 600)), Demo.bank) /\
  (exists s' ax' ay' tx ty,
     undo (TransferCommand Demo.acc1 Demo.acc2 (of_Z 200)) Demo.bank = (inr tt, s') /\
     heap s' !! Demo.acc1 = Some ax' /\ heap s' !! Demo.acc2 = Some ay' /\
     acc_balance ax' = of_Z 1200 /\ acc_balance ay' = of_Z 300 /\
     acc_transactions ax' = [tx] /\ acc_transactions ay' = [ty] /\
     tx_type tx = DEPOSIT /\ tx_type ty = WITHDRAW).
Proof.
  assert (Hne : Demo.acc1 <> Demo.acc2) by discriminate.
  assert (Hx : heap Demo.bank !! Demo.acc1 =
    Some (mkBankAccount "uuid-" "John's Savings" SAVINGS (of_Z 1000)
                        SavingsInterestStrategy [])) by reflexivity.
  assert (Hy : heap Demo.bank !! Demo.acc2 =
    Some (mkBankAccount "uuid-i" "John's Checking" CHECKING (of_Z 500)
                        CheckingInterestStrategy [])) by reflexivity.
  split.
  - refine (proj2 (undo_transfer_spec Demo.bank Demo.acc1 Demo.acc2 _ _
                     (of_Z 600) Hne Hx Hy) _ _); reflexivity.
  - destruct (proj1 (undo_transfer_spec Demo.bank Demo.acc1 Demo.acc2 _ _
                       (of_Z 200) Hne Hx Hy) eq_refl eq_refl)
      as (s' & ax' & ay' & tx & ty & Hrun & Hlx & Hly & Hbx & Hby & Hgx & Hgy
          & Htx & _ & _ & Hty & _).
    exists s', ax', ay', tx, ty. split_and!; assumption.
Defined.

(** ** Amounts that are not numbers *)

Lemma add_nan (x : number) : (x + S754_nan)%num = S754_nan.
Proof. now destruct x as [[]|[]| |]. Qed.

Lemma sub_nan (x : number) : (x - S754_nan)%num = S754_nan.
Proof. now destruct x as [[]|[]| |]. Qed.

(** X6. The validation of amounts rejects what compares [<= 0] and what
    compares [>] the balance; NaN does neither. So [deposit] and
    [withdraw] both accept NaN on any account: the balance becomes NaN and
    an entry of amount NaN is logged. From then on no withdrawal from the
    account is refused for insufficient funds. *)
Theorem nan_is_accepted (s : State) (this : ref) (a : BankAccount)
    (description : string) :
  heap s !! this = Some a ->
  (exists s' a' t,
     deposit this S754_nan description s = (inr tt, s') /\
     heap s' !! this = Some a' /\
     acc_balance a' = S754_nan /\
     acc_transactions a' = acc_transactions a ++ [t] /\
     tx_type t = DEPOSIT /\ tx_amount t = S754_nan) /\
  (exists s' a' t,
     withdraw this S754_nan description s = (inr tt, s') /\
     heap s' !! this = Some a' /\
     acc_balance a' = S754_nan /\
     acc_transactions a' = acc_transactions a ++ [t] /\
     tx_type t = WITHDRAW /\ tx_amount t = S754_nan) /\
  (acc_balance a = S754_nan ->
   forall amount, (amount <=? zero)%num = false ->
     exists s', withdraw this amount description s = (inr tt, s')).
Proof.
  intros Ha. rewrite deposit_cases, !withdraw_cases, Ha. simpl.
  split; [|split].
  - eexists _, _, _. split; [reflexivity|].
    rewrite (book_lookup _ _ _ _ _ _ _ this Ha), decide_True by reflexivity.
    unfold booked. rewrite add_nan. split_and!; reflexivity.
  - replace (S754_nan >? acc_balance a)%num with false
      by (unfold Num.gt, SFltb; now destruct (acc_balance a)).
    eexists _, _, _. split; [reflexivity|].
    rewrite (book_lookup _ _ _ _ _ _ _ this Ha), decide_True by reflexivity.
    unfold booked. rewrite sub_nan. split_and!; reflexivity.
  - intros Hb amount Hamt. rewrite withdraw_cases, Ha, Hamt, Hb.
    replace (amount >? S754_nan)%num with false
      by (unfold Num.gt, SFltb; now destruct amount).
    eauto.
Qed.

Lemma nan_is_accepted_witness :
  exists s' a' t,
    deposit Demo.acc2 S754_nan "Deposit" Demo.bank = (inr tt, s') /\
    heap s' !! Demo.acc2 = Some a' /\
    acc_balance a' = S754_nan /\
    acc_transactions a' = [t] /\
    tx_type t = DEPOSIT /\ tx_amount t = S754_nan.
Proof.
  refine (proj1 (nan_is_accepted Demo.bank Demo.acc2
    (mkBankAccount "uuid-i" "John's Checking" CHECKING (of_Z 500)
                   CheckingInterestStrategy [])
    "Deposit" _)). reflexivity.
Defined.

(** ** The history is a stack *)

(** X7. When [undoLastCommand] returns normally on a history whose last
    command is [command], it has run the [undo] of that command and
    removed exactly it from the history. So a command that went through
    and an undo that went through, in that order, leave the history as it
    was. *)
Theorem history_is_a_stack (s : State) (command : BankCommand) :
  (forall s', last (history s) = Some command ->
     undoLastCommand s = (inr tt, s') ->
     undo command (set_history (removelast (history s)) s) = (inr tt, s') /\
     history s' = removelast (history s) /\
     history s = history s' ++ [command]) /\
  (forall s1 s2,
     executeCommand command s = (inr tt, s1) ->
     undoLastCommand s1 = (inr tt, s2) ->
     history s2 = history s).
Proof.
  assert (Hpop : forall s c s', last (history s) = Some c ->
     undoLastCommand s = (inr tt, s') ->
     undo c (set_history (removelast (history s)) s) = (inr tt, s') /\
     history s' = removelast (history s) /\
     history s = history s' ++ [c]).
  { clear. intros s c s' Hl. rewrite undoLastCommand_cases, Hl.
    pose proof (undo_records c (set_history (removelast (history s)) s)) as Hr.
    apply records_history in Hr.
    destruct (undo c _) as [[e|[]] s1]; [discriminate|]. intros [= <-].
    simpl in Hr. split; [reflexivity|]. split; [exact Hr|].
    rewrite Hr. now apply last_snoc_inv. }
  split; [intros s'; apply Hpop|].
  intros s1 s2. rewrite executeCommand_cases.
  pose proof (execute_records command s) as Hr. apply records_history in Hr.
  destruct (execute command s) as [[e|[]] sx]; [discriminate|]. intros [= <-] Hu.
  simpl in Hr.
  destruct (Hpop (set_history (history sx ++ [command]) sx) command s2
              (last_push (history sx) command) Hu) as (_ & Hh & _).
  rewrite Hh. simpl. now rewrite removelast_last.
Qed.

Lemma history_is_a_stack_witness :
  exists s1 s2,
    executeCommand (TransferCommand Demo.acc2 Demo.acc1 (of_Z 300)) Demo.bank =
      (inr tt, s1) /\
    undoLastCommand s1 = (inr tt, s2) /\
    history s2 = history Demo.bank.
Proof.
  eexists _, _.
  assert (H1 : executeCommand (TransferCommand Demo.acc2 Demo.acc1 (of_Z 300))
                 Demo.bank =
               (inr tt, snd (executeCommand
                  (TransferCommand Demo.acc2 Demo.acc1 (of_Z 300)) Demo.bank)))
    by (vm_compute; reflexivity).
  assert (H2 : undoLastCommand (snd (executeCommand
                  (TransferCommand Demo.acc2 Demo.acc1 (of_Z 300)) Demo.bank)) =
               (inr tt, snd (undoLastCommand (snd (executeCommand
                  (TransferCommand Demo.acc2 Demo.acc1 (of_Z 300)) Demo.bank)))))
    by (vm_compute; reflexivity).
  split; [exact H1|]. split; [exact H2|].
  exact (proj2 (history_is_a_stack Demo.bank
                  (TransferCommand Demo.acc2 Demo.acc1 (of_Z 300))) _ _ H1 H2).
Defined.

(** ** The registry *)

Lemma Map_get_set_eq k v m : Map_get k (Map_set k v m) = Some v.
Proof.
  induction m as [|[k' v'] m IH]; simpl.
  - now rewrite String.eqb_refl.
  - destruct (String.eqb k k') eqn:E; simpl.
    + now rewrite String.eqb_refl.
    + now rewrite E.
Qed.

Lemma Map_get_set_ne k k' v m : k' <> k -> Map_get k' (Map_set k v m) = Map_get k' m.
Proof.
  intros Hne. induction m as [|[k0 v0] m IH]; simpl.
  - apply String.eqb_neq in Hne. now rewrite Hne.
  - destruct (String.eqb k k0) eqn:E; simpl.
    + apply String.eqb_eq in E. subst k0.
      apply String.eqb_neq in Hne. now rewrite Hne.
    + now rewrite IH.
Qed.

Lemma Map_get_None k m : Map_get k m = None <-> k ∉ m.*1.
Proof.
  induction m as [|[k' v'] m IH]; simpl.
  - split; [intros _; apply not_elem_of_nil|reflexivity].
  - rewrite not_elem_of_cons. destruct (String.eqb k k') eqn:E.
    + apply String.eqb_eq in E. split; [discriminate|]. intros [Hne _]. contradiction.
    + apply String.eqb_neq in E. rewrite IH. tauto.
Qed.

(** X8. [createAccount] makes an account with the given name, category
    and balance, an empty log and the policy of its category, returns a
    reference to it and registers it under its identifier: [getAccount]
    of that identifier returns it, and [getAccount] of any other
    identifier returns what it returned before. The accounts that existed
    and the history are untouched. [getAccount] of an identifier that is
    not a key of the registry returns nothing. *)
Theorem createAccount_registers (s : State) (name : string) (type : AccountType)
    (initialBalance : number) :
  (exists r s' a,
     createAccount name type initialBalance s = (inr r, s') /\
     heap s' !! r = Some a /\
     a = mkBankAccount (uuid_supply s (draws s)) name type initialBalance
                       (policy type) [] /\
     getAccount (acc_id a) s' = (inr (Some r), s') /\
     (forall id, id <> acc_id a ->
        fst (getAccount id s') = fst (getAccount id s)) /\
     (forall (r' : ref) a', heap s !! r' = Some a' -> heap s' !! r' = Some a') /\
     history s' = history s) /\
  (forall id, id ∉ (accounts s).*1 -> getAccount id s = (inr None, s)).
Proof.
  split.
  - rewrite createAccount_eq. eexists _, _, _. split; [reflexivity|]. simpl.
    split; [rewrite lookup_app_r, Nat.sub_diag by lia; reflexivity|].
    split; [reflexivity|]. unfold getAccount, gets. simpl.
    split; [now rewrite Map_get_set_eq|]. split; [|split; [|reflexivity]].
    + intros id Hne. f_equal. now apply Map_get_set_ne.
    + intros r' a' Ha'. rewrite lookup_app_l; [exact Ha'|].
      apply (lookup_lt_Some _ _ _ Ha').
  - intros id Hid. unfold getAccount, gets. f_equal. f_equal.
    now apply Map_get_None.
Qed.

Lemma createAccount_registers_witness :
  getAccount "no such id" Demo.bank = (inr None, Demo.bank) /\
  exists r s' a,
    createAccount "Fourth" SAVINGS (of_Z 10) Demo.bank = (inr r, s') /\
    heap s' !! r = Some a /\
    acc_name a = "Fourth" /\ acc_balance a = of_Z 10 /\ acc_transactions a = [] /\
    acc_interestStrategy a = SavingsInterestStrategy /\
    getAccount (acc_id a) s' = (inr (Some r), s').
Proof.
  split.
  - apply (proj2 (createAccount_registers Demo.bank "" SAVINGS zero)).
    vm_compute. intros H. repeat (apply elem_of_cons in H as [H|H]; [discriminate H|]).
    now apply elem_of_nil in H.
  - destruct (proj1 (createAccount_registers Demo.bank "Fourth" SAVINGS (of_Z 10)))
      as (r & s' & a & Hrun & Ha & -> & Hget & _).
    eexists r, s', _. split; [exact Hrun|]. split; [exact Ha|].
    split_and!; try reflexivity. exact Hget.
Defined.

(** *** With identifiers that are never drawn twice *)

Lemma Map_set_fresh k v m : k ∉ m.*1 -> Map_set k v m = m ++ [(k, v)].
Proof.
  induction m as [|[k' v'] m IH]; simpl; [reflexivity|].
  rewrite not_elem_of_cons. intros [Hne Hk].
  apply String.eqb_neq in Hne. rewrite Hne. now rewrite IH.
Qed.

Lemma Map_get_zip (ks : list string) (j i : nat) (k : string) :
  NoDup ks -> ks !! i = Some k ->
  Map_get k (zip ks (seq j (length ks))) = Some (j + i)%nat.
Proof.
  revert j i. induction ks as [|k0 ks IH]; intros j i Hnd Hi; [discriminate|].
  apply NoDup_cons in Hnd as [Hk0 Hnd]. simpl. destruct i as [|i]; simpl in Hi.
  - injection Hi as ->. rewrite String.eqb_refl. f_equal. lia.
  - assert (Hne : k <> k0).
    { intros ->. apply Hk0. eapply list_elem_of_lookup_2, Hi. }
    apply String.eqb_neq in Hne. rewrite Hne.
    rewrite (IH (S j) i Hnd Hi). f_equal. lia.
Qed.

Lemma Map_values_zip (ks : list string) (j : nat) :
  Map_values (zip ks (seq j (length ks))) = seq j (length ks).
Proof.
  revert j. induction ks as [|k0 ks IH]; intros j; [reflexivity|].
  simpl. f_equal. apply IH.
Qed.

Lemma full_registry_snoc h a :
  full_registry (h ++ [a]) = full_registry h ++ [(acc_id a, length h)].
Proof.
  unfold full_registry. rewrite fmap_app, length_app. simpl.
  rewrite Nat.add_1_r, seq_S. simpl.
  rewrite zip_with_app by (now rewrite length_fmap, length_seq). reflexivity.
Qed.

Lemma full_registry_keys h : (full_registry h).*1 = acc_id <$> h.
Proof.
  unfold full_registry. apply fst_zip. now rewrite length_fmap, length_seq.
Qed.

Lemma all_ids_snoc h a :
  all_ids (h ++ [a]) ≡ₚ all_ids h ++ acc_id a :: (tx_id <$> acc_transactions a).
Proof.
  unfold all_ids. rewrite fmap_app, bind_app. simpl. rewrite app_nil_r.
  solve_Permutation.
Qed.

Lemma all_ids_insert h (i : nat) a a' t :
  h !! i = Some a ->
  acc_id a' = acc_id a ->
  acc_transactions a' = acc_transactions a ++ [t] ->
  all_ids (<[i := a']> h) ≡ₚ all_ids h ++ [tx_id t].
Proof.
  intros Ha Hid Hlog.
  rewrite insert_take_drop by (apply (lookup_lt_Some _ _ _ Ha)).
  rewrite <- (take_drop_middle h i a Ha) at 3.
  unfold all_ids. rewrite !fmap_app, !bind_app, !fmap_cons, !bind_cons.
  rewrite Hid, Hlog, fmap_app. simpl. solve_Permutation.
Qed.

Lemma fresh_ids_session (uuids : nat -> string) (dates : nat -> Z) (calls : list Call) :
  (forall i j, uuids i = uuids j -> i = j) ->
  fresh_ids uuids (run calls (initial uuids dates)).
Proof.
  intros Hinj. apply session_induction.
  - split; [reflexivity|]. split; [reflexivity|]. exists []. repeat constructor.
  - intros s name type b0 (Hu & Hacc & ixs & Hperm & Hnd & Hlt).
    rewrite createAccount_eq. simpl. split; [exact Hu|].
    assert (Hnew : draws s ∉ ixs).
    { intros Hin. rewrite Forall_forall in Hlt. specialize (Hlt _ Hin). lia. }
    split.
    + simpl. rewrite Hacc, full_registry_snoc. unfold opened_account. simpl acc_id.
      apply Map_set_fresh. rewrite full_registry_keys, Hu. intros Hin.
      assert (Hall : uuids (draws s) ∈ all_ids (heap s))
        by (unfold all_ids; apply elem_of_app; now left).
      rewrite Hperm in Hall. apply list_elem_of_fmap in Hall as (i & Hi & Hin').
      apply Hinj in Hi. subst i. contradiction.
    + exists (ixs ++ [draws s]). simpl. split; [|split].
      * rewrite all_ids_snoc, fmap_app, Hperm. unfold opened_account. simpl.
        now rewrite Hu.
      * apply NoDup_app. split; [exact Hnd|]. split; [|apply NoDup_singleton].
        intros i Hi Hi'. apply list_elem_of_singleton in Hi'. subst i. contradiction.
      * apply Forall_app. split; [|repeat constructor].
        eapply Forall_impl; [exact Hlt|]. simpl. intros; lia.
  - intros s this a type amount description (Hu & Hacc & ixs & Hperm & Hnd & Hlt)
      Ha Hk Hamt. unfold ref in *.
    assert (Hnew : draws s ∉ ixs).
    { intros Hin. rewrite Forall_forall in Hlt. specialize (Hlt _ Hin). lia. }
    split; [exact Hu|]. split.
    + simpl. rewrite Hacc. unfold full_registry.
      rewrite list_fmap_insert, length_insert. simpl.
      rewrite list_insert_id; [reflexivity|]. now rewrite list_lookup_fmap, Ha.
    + exists (ixs ++ [draws s]). simpl. split; [|split].
      * rewrite (all_ids_insert _ _ a _ (entry s a type amount description) Ha);
          [|reflexivity|reflexivity].
        rewrite fmap_app, Hperm. simpl. now rewrite Hu.
      * apply NoDup_app. split; [exact Hnd|]. split; [|apply NoDup_singleton].
        intros i Hi Hi'. apply list_elem_of_singleton in Hi'. subst i. contradiction.
      * apply Forall_app. split; [|repeat constructor].
        eapply Forall_impl; [exact Hlt|]. simpl. intros; lia.
  - intros s h Hs. exact Hs.
Qed.

(** X9. In a session whose environment never answers [uuidv4()] twice
    with the same identifier, no two identifiers of accounts or of log
    entries are equal; the registry holds every account of the heap, in
    order of creation, so that [getAllAccounts] lists them all and
    [getAccount] finds each one by its identifier. *)
Theorem registry_is_complete (calls : list Call) (uuids : nat -> string)
    (dates : nat -> Z) (s : State) :
  (forall i j, uuids i = uuids j -> i = j) ->
  s = run calls (initial uuids dates) ->
  NoDup (all_ids (heap s)) /\
  accounts s = full_registry (heap s) /\
  getAllAccounts s = (inr (seq 0 (length (heap s))), s) /\
  (forall (r : ref) a,
     heap s !! r = Some a -> getAccount (acc_id a) s = (inr (Some r), s)).
Proof.
  intros Hinj ->. set (s := run calls (initial uuids dates)).
  destruct (fresh_ids_session uuids dates calls Hinj)
    as (Hu & Hacc & ixs & Hperm & Hnd & Hlt). fold s in Hu, Hacc, Hperm, Hlt.
  assert (Hids : NoDup (all_ids (heap s))).
  { rewrite Hperm. apply NoDup_fmap_2_strong; [|exact Hnd]. intros i j _ _. apply Hinj. }
  split; [exact Hids|]. split; [exact Hacc|]. split.
  - unfold getAllAccounts, gets. rewrite Hacc. unfold full_registry.
    rewrite <- (length_fmap acc_id (heap s)). now rewrite Map_values_zip.
  - intros r a Ha. unfold ref in *.
    unfold getAccount, gets. rewrite Hacc. unfold full_registry.
    rewrite <- (length_fmap acc_id (heap s)).
    rewrite (Map_get_zip _ 0 r (acc_id a)); [reflexivity| |].
    + unfold all_ids in Hids. now apply NoDup_app in Hids as [? _].
    + now rewrite list_lookup_fmap, Ha.
Qed.

Lemma Demo_uuids_inj (i j : nat) : Demo.uuids i = Demo.uuids j -> i = j.
Proof.
  unfold Demo.uuids. simpl. intros [= H]. revert j H.
  induction i as [|i IH]; intros [|j]; simpl; intros H;
    try reflexivity; try discriminate H.
  injection H as H. f_equal. now apply IH.
Qed.

Lemma registry_is_complete_witness :
  getAllAccounts Demo.bank = (inr [Demo.acc1; Demo.acc2; Demo.acc3], Demo.bank).
Proof.
  exact (proj1 (proj2 (proj2
    (registry_is_complete Demo.opened Demo.uuids Demo.dates Demo.bank
       Demo_uuids_inj eq_refl)))).
Defined.

(** ** What the handlers of [App.tsx] show *)

Lemma handler_unfold (body : M bool) (app : AppState) :
  handler body app =
    match body (bankSystem app) with
    | (inr true, s') => mkAppState s' (S (version app)) None
    | (inr false, s') => mkAppState s' (version app) (errorMsg app)
    | (inl e, s') => mkAppState s' (version app) (Some e)
    end.
Proof. reflexivity. Qed.

(** X10. What the handlers of the component show. An identifier that is
    not registered makes every handler a silent no-op: the bank, the
    version and the error message are as they were. With a registered
    account, an amount [<= 0] or a withdrawal above the balance sets the
    error message to the error thrown and leaves the bank and the version
    untouched; a deposit of a positive amount goes through, increments the
    version and clears the message. [handleUndo] on an empty history
    reports success: the version is incremented and the message cleared
    while the bank is unchanged. *)
Theorem handlers_spec (app : AppState) (id : string) (amount : number) :
  (Map_get id (accounts (bankSystem app)) = None ->
     handleDeposit id amount app = app /\
     handleWithdraw id amount app = app /\
     (forall toId, handleTransfer id toId amount app = app) /\
     (forall fromId, handleTransfer fromId id amount app = app)) /\
  (forall (acc : ref) (a : BankAccount),
     Map_get id (accounts (bankSystem app)) = Some acc ->
     heap (bankSystem app) !! acc = Some a ->
     ((amount <=? zero)%num = true ->
        handleDeposit id amount app =
          mkAppState (bankSystem app) (version app) (Some DepositNotPositive) /\
        handleWithdraw id amount app =
          mkAppState (bankSystem app) (version app) (Some WithdrawNotPositive)) /\
     ((amount <=? zero)%num = false -> (amount >? acc_balance a)%num = true ->
        handleWithdraw id amount app =
          mkAppState (bankSystem app) (version app)
                     (Some (InsufficientFunds (acc_balance a) amount))) /\
     ((amount <=? zero)%num = false ->
        exists s' a',
          handleDeposit id amount app = mkAppState s' (S (version app)) None /\
          heap s' !! acc = Some a' /\
          acc_balance a' = (acc_balance a + amount)%num /\
          length (acc_transactions a') = S (length (acc_transactions a)) /\
          history s' = history (bankSystem app) ++ [DepositCommand acc amount])) /\
  (history (bankSystem app) = [] ->
     handleUndo app = mkAppState (bankSystem app) (S (version app)) None).
Proof.
  destruct app as [s v msg]. simpl bankSystem. simpl version. split; [|split].
  - intros Hnone. split; [|split; [|split]].
    + unfold handleDeposit. rewrite handler_unfold. simpl bankSystem.
      unfold bind, getAccount, gets. now rewrite Hnone.
    + unfold handleWithdraw. rewrite handler_unfold. simpl bankSystem.
      unfold bind, getAccount, gets. now rewrite Hnone.
    + intros toId. unfold handleTransfer. rewrite handler_unfold. simpl bankSystem.
      unfold bind, getAccount, gets. now rewrite Hnone.
    + intros fromId. unfold handleTransfer. rewrite handler_unfold. simpl bankSystem.
      unfold bind, getAccount, gets. rewrite Hnone.
      now destruct (Map_get fromId (accounts s)).
  - intros acc a Hacc Ha. split; [|split].
    + intros Hamt. split.
      * unfold handleDeposit. rewrite handler_unfold. simpl bankSystem.
        unfold bind at 1, getAccount, gets. rewrite Hacc.
        unfold bind. rewrite executeCommand_cases. simpl execute.
        now rewrite deposit_cases, Hamt.
      * unfold handleWithdraw. rewrite handler_unfold. simpl bankSystem.
        unfold bind at 1, getAccount, gets. rewrite Hacc.
        unfold bind. rewrite executeCommand_cases. simpl execute.
        now rewrite withdraw_cases, Hamt.
    + intros Hamt Hgt.
      unfold handleWithdraw. rewrite handler_unfold. simpl bankSystem.
      unfold bind at 1, getAccount, gets. rewrite Hacc.
      unfold bind. rewrite executeCommand_cases. simpl execute.
      now rewrite withdraw_cases, Hamt, Ha, Hgt.
    + intros Hamt.
      unfold handleDeposit. rewrite handler_unfold. simpl bankSystem.
      unfold bind at 1, getAccount, gets. rewrite Hacc.
      unfold bind. rewrite executeCommand_cases. simpl execute.
      rewrite deposit_cases, Hamt, Ha. unfold ret.
      eexists _, _. split; [reflexivity|].
      unfold set_history at 1. cbn [heap]. unfold ref in *.
      rewrite (book_lookup _ _ _ _ _ _ _ acc Ha), decide_True by reflexivity.
      split; [reflexivity|]. split; [reflexivity|]. split.
      * unfold booked. simpl. rewrite length_app. simpl. lia.
      * reflexivity.
  - intros Hh. unfold handleUndo. rewrite handler_unfold. simpl bankSystem.
    unfold bind. rewrite undoLastCommand_cases, Hh. reflexivity.
Qed.

Lemma handlers_spec_witness :
  handleDeposit "no such account" (of_Z 5) (mkAppState Demo.bank 0 None) =
    mkAppState Demo.bank 0 None /\
  handleWithdraw "uuid-i" (of_Z 600) (mkAppState Demo.bank 0 None) =
    mkAppState Demo.bank 0 (Some (InsufficientFunds (of_Z 500) (of_Z 600))) /\
  handleUndo (mkAppState Demo.bank 0 None) = mkAppState Demo.bank 1 None.
Proof.
  split; [|split].
  - refine (proj1 (proj1 (handlers_spec (mkAppState Demo.bank 0 None)
                            "no such account" (of_Z 5)) _)).
    reflexivity.
  - refine (proj1 (proj2 (proj1 (proj2 (handlers_spec (mkAppState Demo.bank 0 None)
                            "uuid-i" (of_Z 600))) Demo.acc2
       (mkBankAccount "uuid-i" "John's Checking" CHECKING (of_Z 500)
                      CheckingInterestStrategy []) _ _)) _ _); reflexivity.
  - refine (proj2 (proj2 (handlers_spec (mkAppState Demo.bank 0 None)
                            "uuid-i" (of_Z 5))) _).
    reflexivity.
Defined.
